(** * flying_emu: the EMU-2 to MQTT bridge

    A shallow embedding of [src/flying_emu/__init__.py]: the startup
    sequence of [run], its polling loop with the shared unresponsiveness
    counter, the reading conversion done with Python's [decimal.Decimal],
    and [main], which turns any exception of [run] into exit status 1.

    The device driver ([emu_power.Emu]) and the MQTT client
    ([paho.mqtt.client]) are collaborators: their answers are inputs of
    the model, their calls are events of the trace. *)

From Stdlib Require Import ZArith List String Bool Lia QArith.
From Stdlib Require Import Qabs.
Import ListNotations.

Local Open Scope Z_scope.

(** ** Python's [decimal] in the default context

    [Decimal(a) * b / c] runs in the default context: 28 significant
    digits, ROUND_HALF_EVEN, Emax = 999999, Emin = -999999, and the traps
    DivisionByZero, InvalidOperation and Overflow enabled.  A finite
    decimal is a sign, a non-negative coefficient and an exponent. *)

Module Decimal.

Record t : Set := mk { sign : bool; coeff : Z; exp : Z }.

(** The trapped signals: each one is raised as a Python exception. *)
Inductive signal : Set := DivisionByZero | InvalidOperation | Overflow.

Definition prec : Z := 28.
Definition Emax : Z := 999999.
Definition Emin : Z := -999999.
Definition Etiny : Z := Emin - prec + 1.
Definition Etop : Z := Emax - prec + 1.

(** [len(str(c))] for a coefficient [c >= 0]. *)
Fixpoint ndigits_aux (fuel : nat) (c : Z) : Z :=
  match fuel with
  | O => 1
  | S fuel' => if c <? 10 then 1 else 1 + ndigits_aux fuel' (c / 10)
  end.

Definition ndigits (c : Z) : Z := ndigits_aux (Z.to_nat (Z.log2 c)) c.

(** [Decimal(n)] for a Python int: exact, whatever the context. *)
Definition of_int (n : Z) : t := mk (n <? 0) (Z.abs n) 0.

(** ROUND_HALF_EVEN on a coefficient split as [q * 10^k + r]: round up
    when the dropped part is above one half, or exactly one half with
    an odd kept part. *)
Definition round_half_even_up (q r k : Z) : bool :=
  (10 ^ k <? 2 * r) || ((2 * r =? 10 ^ k) && Z.odd q).

(** [Decimal._fix]: round to the context's precision and exponent
    range (clamp = 0). *)
Definition fix_context (d : t) : t + signal :=
  if coeff d =? 0 then
    inl (mk (sign d) 0 (Z.min (Z.max (exp d) Etiny) Emax))
  else
    let exp_min := ndigits (coeff d) + exp d - prec in
    if Etop <? exp_min then inr Overflow
    else
      let exp_min := Z.max exp_min Etiny in
      if exp d <? exp_min then
        let digits := ndigits (coeff d) + exp d - exp_min in
        let '(c, e) :=
          if digits <? 0 then (1, exp_min - 1) else (coeff d, exp d) in
        let k := exp_min - e in
        let q := c / 10 ^ k in
        let r := c mod 10 ^ k in
        let up := round_half_even_up q r k in
        let c' := if up then q + 1 else q in
        let '(c', exp_min) :=
          if up && (prec <? ndigits c')
          then (c' / 10, exp_min + 1) else (c', exp_min) in
        if Etop <? exp_min then inr Overflow
        else inl (mk (sign d) c' exp_min)
      else inl d.

(** [Decimal.__mul__] on finite operands. *)
Definition mul (a b : t) : t + signal :=
  fix_context (mk (xorb (sign a) (sign b)) (coeff a * coeff b) (exp a + exp b)).

(** The loop of [__truediv__] that brings an exact quotient as close to
    the ideal exponent as its trailing zeros allow; [fuel] is
    [ideal_exp - exp]. *)
Fixpoint strip_zeros (fuel : nat) (c e : Z) : Z * Z :=
  match fuel with
  | O => (c, e)
  | S fuel' =>
      if c mod 10 =? 0 then strip_zeros fuel' (c / 10) (e + 1) else (c, e)
  end.

(** [Decimal.__truediv__] on finite operands. *)
Definition truediv (a b : t) : t + signal :=
  let s := xorb (sign a) (sign b) in
  if coeff b =? 0 then
    if coeff a =? 0 then inr InvalidOperation else inr DivisionByZero
  else if coeff a =? 0 then
    fix_context (mk s 0 (exp a - exp b))
  else
    let shift := ndigits (coeff b) - ndigits (coeff a) + prec + 1 in
    let e := exp a - exp b - shift in
    let '(n, m) :=
      if 0 <=? shift then (coeff a * 10 ^ shift, coeff b)
      else (coeff a, coeff b * 10 ^ (- shift)) in
    let c := n / m in
    let remainder := n mod m in
    let '(c, e) :=
      if remainder =? 0
      then strip_zeros (Z.to_nat (exp a - exp b - e)) c e
      else (if c mod 5 =? 0 then c + 1 else c, e) in
    fix_context (mk s c e).

(** The coefficient with its sign. *)
Definition scoeff (d : t) : Z := if sign d then - coeff d else coeff d.

(** The rational number a decimal denotes: [scoeff * 10^exp]. *)
Definition value (d : t) : Q :=
  if 0 <=? exp d then inject_Z (scoeff d * 10 ^ exp d)
  else Qmake (scoeff d) (Z.to_pos (10 ^ (- exp d))).

End Decimal.

(** ** Data model *)

(** A response of the driver to a reading request, as [run] uses it:
    the meter MAC, [summation_delivered] or [demand], [multiplier],
    [divisor], and the timestamp, of which [run] only tests the
    truthiness. *)
Record RawReading : Set := mkRawReading {
  meter_mac : string;
  raw_value : Z;
  multiplier : Z;
  divisor : Z;
  timestamp : bool
}.

Record DeviceInfo : Set := mkDeviceInfo {
  manufacturer : string;
  model_id : string;
  fw_version : string;
  device_mac : string
}.

(** The options of the configuration file that [run] reads. *)
Record Config : Set := mkConfig {
  serial : string;
  timeout_s : Z;
  hostname : string;
  port : Z;
  client_id : string;
  discovery_prefix : string;
  interval_s : Z
}.

(** The [mqtt_device] dictionary (lines 77-83). *)
Record MqttDevice : Set := mkMqttDevice {
  dev_manufacturer : string;
  dev_model : string;
  dev_name : string;
  dev_sw_version : string;
  dev_identifiers : list string
}.

(** A discovery dictionary (lines 102-124). *)
Record DiscoveryConfig : Set := mkDiscoveryConfig {
  disc_name : string;
  disc_unique_id : string;
  disc_state_topic : string;
  disc_availability_topic : string;
  disc_device : MqttDevice;
  disc_unit_of_measurement : string;
  disc_state_class : string;
  disc_device_class : string;
  disc_value_template : string
}.

(** What is handed to [publish] or [will_set]: a literal string,
    [json.dumps] of a discovery dictionary, or
    [json.dumps({'reading': float(d)})]; the cast to a binary float
    happens inside the last one and nowhere else. *)
Inductive payload : Set :=
| Text (s : string)
| DiscoveryJson (c : DiscoveryConfig)
| ReadingJson (d : Decimal.t).

(** The calls [run] makes on its collaborators, in program order; a
    call on the driver carries what the driver returned.  [Assign v]
    records an assignment of [v] to [emu_unresponsive].  Logging is left
    out. *)
Inductive event : Set :=
| EmuCreate (timeout : Z)
| StartSerial (port_name : string) (result : bool)
| StopSerial
| SetScheduleDefault
| GetDeviceInfo (response : option DeviceInfo)
| GetInstantaneousDemand (response : option RawReading)
| GetCurrentSummation (response : option RawReading)
| ClientCreate (id : string)
| WillSet (topic : string) (p : payload) (retain : bool)
| Connect (host : string) (port_number : Z)
| LoopStart
| Publish (topic : string) (p : payload) (retain : bool)
| Assign (v : Z)
| Sleep (seconds : Z).

Inductive exn : Set :=
| ValueError (msg : string)
| AttributeError
| DecimalException (s : Decimal.signal).

(** ** Computations: a trace of events and a value or an exception *)

Definition M (A : Type) : Type := list event * (A + exn).

Definition ret {A : Type} (a : A) : M A := ([], inl a).

Definition raise {A : Type} (e : exn) : M A := ([], inr e).

Definition emit (e : event) : M unit := ([e], inl tt).

Definition bind {A B : Type} (m : M A) (f : A -> M B) : M B :=
  match m with
  | (tr, inl a) => let '(tr', r) := f a in (tr ++ tr', r)
  | (tr, inr e) => (tr, inr e)
  end.

Notation "x <- m ;; k" := (bind m (fun x => k))
  (at level 61, m at next level, right associativity).
Notation "m ;; k" := (bind m (fun _ => k))
  (at level 61, right associativity).

(** ** Reading conversion *)

(** [Decimal(raw) * multiplier / divisor] (lines 167 and 184); each int
    is converted exactly before its operation. *)
Definition convert (raw mult div : Z) : Decimal.t + Decimal.signal :=
  match Decimal.mul (Decimal.of_int raw) (Decimal.of_int mult) with
  | inl p => Decimal.truediv p (Decimal.of_int div)
  | inr s => inr s
  end.

Definition convert_reading (r : RawReading) : M Decimal.t :=
  match convert (raw_value r) (multiplier r) (divisor r) with
  | inl d => ret d
  | inr s => raise (DecimalException s)
  end.

(** ** Topics and discovery dictionaries *)

Definition mqtt_prefix (cfg : Config) (mac : string) : string :=
  (discovery_prefix cfg ++ "/sensor/flying_emu-" ++ mac)%string.

Definition availability_topic (pfx : string) : string :=
  (pfx ++ "/availability")%string.
Definition current_summation_config_topic (pfx : string) : string :=
  (pfx ++ "/current_summation/config")%string.
Definition current_summation_state_topic (pfx : string) : string :=
  (pfx ++ "/current_summation/state")%string.
Definition instantaneous_demand_config_topic (pfx : string) : string :=
  (pfx ++ "/instantaneous_demand/config")%string.
Definition instantaneous_demand_state_topic (pfx : string) : string :=
  (pfx ++ "/instantaneous_demand/state")%string.

Definition mqtt_device (info : DeviceInfo) : MqttDevice :=
  {| dev_manufacturer := manufacturer info;
     dev_model := model_id info;
     dev_name := model_id info;
     dev_sw_version := fw_version info;
     dev_identifiers := [device_mac info] |}.

Definition current_summation_discovery_config
    (pfx mac : string) (dev : MqttDevice) : DiscoveryConfig :=
  {| disc_name := ("EMU-2 Current Summation " ++ mac)%string;
     disc_unique_id := (mac ++ "_current_summation")%string;
     disc_state_topic := current_summation_state_topic pfx;
     disc_availability_topic := availability_topic pfx;
     disc_device := dev;
     disc_unit_of_measurement := "kWh";
     disc_state_class := "total_increasing";
     disc_device_class := "energy";
     disc_value_template := "{{ value_json.reading }}" |}.

Definition instantaneous_demand_discovery_config
    (pfx mac : string) (dev : MqttDevice) : DiscoveryConfig :=
  {| disc_name := ("EMU-2 Instantaneous Demand " ++ mac)%string;
     disc_unique_id := (mac ++ "_instantaneous_demand")%string;
     disc_state_topic := instantaneous_demand_state_topic pfx;
     disc_availability_topic := availability_topic pfx;
     disc_device := dev;
     disc_unit_of_measurement := "kW";
     disc_state_class := "measurement";
     disc_device_class := "power";
     disc_value_template := "{{ value_json.reading }}" |}.

(** ** The MQTT client *)

(** The part of the paho client that [run] configures: the last will and
    the [on_connect] hook. *)
Record Client : Type := mkClient {
  will : option (string * payload * bool);
  on_connect_hook : option (M unit)
}.

(** The closure [on_connect] of [run] (lines 126-131). *)
Definition on_connect (pfx : string) : M unit :=
  emit (Publish (availability_topic pfx) (Text "online") true).

(** What the client's network thread does when the broker acknowledges
    a connect or a reconnect: it calls the hook, if one is set. *)
Definition broker_connected (c : Client) : M unit :=
  match on_connect_hook c with
  | Some hook => hook
  | None => ret tt
  end.

(** ** Startup (lines 53-145) *)

(** What the device answers during startup. *)
Record StartupEnv : Set := mkStartupEnv {
  serial_opened : bool;
  device_info : option DeviceInfo;
  initial_demand : option RawReading
}.

(** What the polling loop keeps from startup. *)
Record Session : Type := mkSession {
  session_prefix : string;
  session_client : Client
}.

Definition startup (cfg : Config) (env : StartupEnv) : M Session :=
  emit (EmuCreate (timeout_s cfg)) ;;
  emit (StartSerial (serial cfg) (serial_opened env)) ;;
  if negb (serial_opened env) then
    raise (ValueError "Failed to initialize device")
  else
    emit SetScheduleDefault ;;
    emit (GetDeviceInfo (device_info env)) ;;
    emit (GetInstantaneousDemand (initial_demand env)) ;;
    match initial_demand env with
    | None => raise AttributeError
    | Some first =>
        let mac := meter_mac first in
        match device_info env with
        | None => raise AttributeError
        | Some info =>
            let dev := mqtt_device info in
            let pfx := mqtt_prefix cfg mac in
            emit (ClientCreate (client_id cfg)) ;;
            emit (WillSet (availability_topic pfx) (Text "offline") true) ;;
            emit (Connect (hostname cfg) (port cfg)) ;;
            emit LoopStart ;;
            on_connect pfx ;;
            let client :=
              {| will := Some (availability_topic pfx, Text "offline", true);
                 on_connect_hook := Some (on_connect pfx) |} in
            emit (Publish (current_summation_config_topic pfx)
                    (DiscoveryJson
                       (current_summation_discovery_config pfx mac dev))
                    true) ;;
            emit (Publish (instantaneous_demand_config_topic pfx)
                    (DiscoveryJson
                       (instantaneous_demand_discovery_config pfx mac dev))
                    true) ;;
            ret {| session_prefix := pfx; session_client := client |}
        end
    end.

(** ** The polling loop (lines 147-201) *)

Definition CLIENT_UNRESPONSIVE_MAX : Z := 3.

(** What the device would answer during one pass of the loop: to the
    summation request, to the demand request if it is made, and to
    [start_serial] if the connection is reset. *)
Record CycleEnv : Set := mkCycleEnv {
  summation : option RawReading;
  demand : option RawReading;
  reopened : bool
}.

(** [not response or not response.timestamp] is false: the response the
    loop goes on with. *)
Definition genuine (response : option RawReading) : option RawReading :=
  match response with
  | Some r => if timestamp r then Some r else None
  | None => None
  end.

(** The non-response branch, written twice in the source (lines 155-164
    and 172-181); the result is the counter the next pass starts with. *)
Definition non_response (cfg : Config) (env : CycleEnv) (counter : Z) : M Z :=
  let counter := counter + 1 in
  emit (Assign counter) ;;
  if CLIENT_UNRESPONSIVE_MAX <? counter then
    emit StopSerial ;;
    emit (StartSerial (serial cfg) (reopened env)) ;;
    emit (Assign 0) ;;
    ret 0
  else
    emit (Sleep (interval_s cfg)) ;;
    ret counter.

(** One pass of [while True]. *)
Definition cycle (cfg : Config) (pfx : string) (env : CycleEnv)
    (emu_unresponsive : Z) : M Z :=
  emit (GetCurrentSummation (summation env)) ;;
  match genuine (summation env) with
  | None => non_response cfg env emu_unresponsive
  | Some summation_response =>
      emit (Assign 0) ;;
      current_summation <- convert_reading summation_response ;;
      emit (GetInstantaneousDemand (demand env)) ;;
      match genuine (demand env) with
      | None => non_response cfg env 0
      | Some demand_response =>
          emit (Assign 0) ;;
          instantaneous_demand <- convert_reading demand_response ;;
          emit (Publish (current_summation_state_topic pfx)
                  (ReadingJson current_summation) true) ;;
          emit (Publish (instantaneous_demand_state_topic pfx)
                  (ReadingJson instantaneous_demand) true) ;;
          emit (Sleep (interval_s cfg)) ;;
          ret 0
      end
  end.

(** The loop over the passes the environment describes; the result is
    the value of [emu_unresponsive] after the last of them. *)
Fixpoint poll (cfg : Config) (pfx : string) (cycles : list CycleEnv)
    (emu_unresponsive : Z) : M Z :=
  match cycles with
  | [] => ret emu_unresponsive
  | env :: rest =>
      counter <- cycle cfg pfx env emu_unresponsive ;;
      poll cfg pfx rest counter
  end.

(** ** [run] and [main] *)

Definition run (cfg : Config) (env : StartupEnv) (cycles : list CycleEnv)
    : M Z :=
  session <- startup cfg env ;;
  emit (Assign 0) ;;
  poll cfg (session_prefix session) cycles 0.

(** How the process stands after the observed passes: still in the loop
    with some counter, or gone through [os._exit]. *)
Inductive status : Set :=
| Polling (emu_unresponsive : Z)
| Exited (code : Z).

(** [main]: any exception of [run] ends the process with status 1
    (lines 43-49). *)
Definition main (cfg : Config) (env : StartupEnv) (cycles : list CycleEnv)
    : list event * status :=
  match run cfg env cycles with
  | (tr, inl counter) => (tr, Polling counter)
  | (tr, inr _) => (tr, Exited 1)
  end.

(** ** Observations on traces *)

Definition is_sleep (e : event) : bool :=
  match e with Sleep _ => true | _ => false end.

Definition is_stop_serial (e : event) : bool :=
  match e with StopSerial => true | _ => false end.

Definition is_start_serial (e : event) : bool :=
  match e with StartSerial _ _ => true | _ => false end.

Definition is_publish (e : event) : bool :=
  match e with Publish _ _ _ => true | _ => false end.

Definition is_publish_to (topic : string) (e : event) : bool :=
  match e with Publish t _ _ => String.eqb t topic | _ => false end.

Definition is_connect (e : event) : bool :=
  match e with Connect _ _ => true | _ => false end.

Definition is_demand_request (e : event) : bool :=
  match e with GetInstantaneousDemand _ => true | _ => false end.

Definition count (p : event -> bool) (tr : list event) : nat :=
  List.length (filter p tr).

(** The trace of passes that each end in the back-off sleep, from the
    counter value [counter]. *)
Fixpoint backoff_trace (cfg : Config) (envs : list CycleEnv) (counter : Z)
    : list event :=
  match envs with
  | [] => []
  | env :: rest =>
      GetCurrentSummation (summation env) :: Assign (counter + 1)
        :: Sleep (interval_s cfg) :: backoff_trace cfg rest (counter + 1)
  end.

(** The discipline of the counter, read off a trace: every answered
    request is followed at once by the assignment of 0; every value
    assigned lies in [0, CLIENT_UNRESPONSIVE_MAX + 1]; a value above the
    threshold is followed at once by the reconnect and the assignment
    of 0. *)
Fixpoint counter_ok (cfg : Config) (tr : list event) : Prop :=
  match tr with
  | [] => True
  | e :: tl =>
      match e with
      | GetCurrentSummation response | GetInstantaneousDemand response =>
          genuine response <> None -> exists tl', tl = Assign 0 :: tl'
      | Assign v =>
          0 <= v <= CLIENT_UNRESPONSIVE_MAX + 1 /\
          (CLIENT_UNRESPONSIVE_MAX < v ->
           exists result tl',
             tl = StopSerial :: StartSerial (serial cfg) result
                    :: Assign 0 :: tl')
      | _ => True
      end /\ counter_ok cfg tl
  end.

(** The trace of a startup in which the device answers. *)
Definition startup_trace (cfg : Config) (info : DeviceInfo)
    (first : RawReading) : list event :=
  let mac := meter_mac first in
  let pfx := mqtt_prefix cfg mac in
  [EmuCreate (timeout_s cfg); StartSerial (serial cfg) true;
   SetScheduleDefault; GetDeviceInfo (Some info);
   GetInstantaneousDemand (Some first); ClientCreate (client_id cfg);
   WillSet (availability_topic pfx) (Text "offline") true;
   Connect (hostname cfg) (port cfg); LoopStart;
   Publish (availability_topic pfx) (Text "online") true;
   Publish (current_summation_config_topic pfx)
     (DiscoveryJson
        (current_summation_discovery_config pfx mac (mqtt_device info)))
     true;
   Publish (instantaneous_demand_config_topic pfx)
     (DiscoveryJson
        (instantaneous_demand_discovery_config pfx mac (mqtt_device info)))
     true].

(** ** Further observations on traces *)

Definition is_summation_request (e : event) : bool :=
  match e with GetCurrentSummation _ => true | _ => false end.

(** The retain flag of a message handed to the client; calls that carry
    no message count as retained. *)
Definition retained (e : event) : bool :=
  match e with
  | Publish _ _ retain | WillSet _ _ retain => retain
  | _ => true
  end.

(** Calls on the MQTT client. *)
Definition is_client_call (e : event) : bool :=
  match e with
  | ClientCreate _ | WillSet _ _ _ | Connect _ _ | LoopStart
  | Publish _ _ _ => true
  | _ => false
  end.

(** What a pass of the loop may do: the two requests, assignments to the
    counter, the reconnect on the configured port, a sleep of the
    configured interval, and retained publishes of a reading to one of
    the two state topics. *)
Definition loop_event (cfg : Config) (pfx : string) (e : event) : Prop :=
  match e with
  | GetCurrentSummation _ | GetInstantaneousDemand _ | Assign _
  | StopSerial => True
  | StartSerial port_name _ => port_name = serial cfg
  | Sleep seconds => seconds = interval_s cfg
  | Publish topic (ReadingJson _) retain =>
      retain = true /\
      (topic = current_summation_state_topic pfx \/
       topic = instantaneous_demand_state_topic pfx)
  | _ => False
  end.

(** Every [stop_serial] is followed at once by [start_serial] on the
    configured port. *)
Fixpoint reconnects_paired (cfg : Config) (tr : list event) : Prop :=
  match tr with
  | [] => True
  | StopSerial :: tl =>
      (exists result tl', tl = StartSerial (serial cfg) result :: tl') /\
      reconnects_paired cfg tl
  | _ :: tl => reconnects_paired cfg tl
  end.

(** The shapes a pass can take. *)
Inductive pass_shape (cfg : Config) (pfx : string) (env : CycleEnv) (c : Z)
    : M Z -> Prop :=
| pass_backoff :
    genuine (summation env) = None ->
    c + 1 <= CLIENT_UNRESPONSIVE_MAX ->
    pass_shape cfg pfx env c
      ([GetCurrentSummation (summation env); Assign (c + 1);
        Sleep (interval_s cfg)], inl (c + 1))
| pass_reset :
    genuine (summation env) = None ->
    CLIENT_UNRESPONSIVE_MAX < c + 1 ->
    pass_shape cfg pfx env c
      ([GetCurrentSummation (summation env); Assign (c + 1); StopSerial;
        StartSerial (serial cfg) (reopened env); Assign 0], inl 0)
| pass_summation_error (r : RawReading) (s : Decimal.signal) :
    genuine (summation env) = Some r ->
    convert (raw_value r) (multiplier r) (divisor r) = inr s ->
    pass_shape cfg pfx env c
      ([GetCurrentSummation (summation env); Assign 0],
       inr (DecimalException s))
| pass_demand_unanswered (r : RawReading) (d : Decimal.t) :
    genuine (summation env) = Some r ->
    convert (raw_value r) (multiplier r) (divisor r) = inl d ->
    genuine (demand env) = None ->
    pass_shape cfg pfx env c
      ([GetCurrentSummation (summation env); Assign 0;
        GetInstantaneousDemand (demand env); Assign 1;
        Sleep (interval_s cfg)], inl 1)
| pass_demand_error (r r' : RawReading) (d : Decimal.t) (s : Decimal.signal) :
    genuine (summation env) = Some r ->
    convert (raw_value r) (multiplier r) (divisor r) = inl d ->
    genuine (demand env) = Some r' ->
    convert (raw_value r') (multiplier r') (divisor r') = inr s ->
    pass_shape cfg pfx env c
      ([GetCurrentSummation (summation env); Assign 0;
        GetInstantaneousDemand (demand env); Assign 0],
       inr (DecimalException s))
| pass_published (r r' : RawReading) (d d' : Decimal.t) :
    genuine (summation env) = Some r ->
    convert (raw_value r) (multiplier r) (divisor r) = inl d ->
    genuine (demand env) = Some r' ->
    convert (raw_value r') (multiplier r') (divisor r') = inl d' ->
    pass_shape cfg pfx env c
      ([GetCurrentSummation (summation env); Assign 0;
        GetInstantaneousDemand (demand env); Assign 0;
        Publish (current_summation_state_topic pfx) (ReadingJson d) true;
        Publish (instantaneous_demand_state_topic pfx) (ReadingJson d') true;
        Sleep (interval_s cfg)], inl 0).

(** One unit of the last digit of a decimal: [10^exp]. *)
Definition unit_in_last_place (d : Decimal.t) : Q :=
  Decimal.value (Decimal.mk false 1 (Decimal.exp d)).


(** A pass in which the summation request is answered with a zero
    divisor. *)
Definition zero_divisor : CycleEnv :=
  {| summation :=
       Some {| meter_mac := "0x0013500100bbbb"; raw_value := 12345;
               multiplier := 1; divisor := 0; timestamp := true |};
     demand :=
       Some {| meter_mac := "0x0013500100bbbb"; raw_value := 500;
               multiplier := 1; divisor := 1000; timestamp := true |};
     reopened := true |}.

(** ** Sample inputs *)

Definition sample_config : Config :=
  {| serial := "/dev/ttyACM0"; timeout_s := 5; hostname := "broker";
     port := 1883; client_id := "flying_emu"; discovery_prefix := "homeassistant";
     interval_s := 10 |}.

Definition sample_info : DeviceInfo :=
  {| manufacturer := "Rainforest"; model_id := "Z109-EUA";
     fw_version := "2.0.0"; device_mac := "0xd8d5b9000000aaaa" |}.

Definition sample_reading (raw mult div : Z) : RawReading :=
  {| meter_mac := "0x0013500100bbbb"; raw_value := raw; multiplier := mult;
     divisor := div; timestamp := true |}.

Definition sample_startup : StartupEnv :=
  {| serial_opened := true; device_info := Some sample_info;
     initial_demand := Some (sample_reading 500 1 1000) |}.

Definition sample_prefix : string :=
  mqtt_prefix sample_config "0x0013500100bbbb".

(** A pass in which the device answers both requests. *)
Definition answered : CycleEnv :=
  {| summation := Some (sample_reading 12345 1 1000);
     demand := Some (sample_reading 500 1 1000);
     reopened := true |}.

(** A pass in which the device is silent. *)
Definition silent (reopen : bool) : CycleEnv :=
  {| summation := None; demand := None; reopened := reopen |}.

(** A pass in which only the demand request goes unanswered. *)
Definition demand_silent : CycleEnv :=
  {| summation := Some (sample_reading 12345 1 1000);
     demand := None;
     reopened := true |}.

(** * Properties *)

Example convert_12345 :
  convert 12345 1 1000 = inl (Decimal.mk false 12345 (-3)).
Proof. vm_compute. reflexivity. Qed.

Example convert_third :
  convert 1 1 3 = inl (Decimal.mk false 3333333333333333333333333333 (-28)).
Proof. vm_compute. reflexivity. Qed.

Example convert_two_thirds :
  convert 2 1 3 = inl (Decimal.mk false 6666666666666666666666666667 (-28)).
Proof. vm_compute. reflexivity. Qed.

Example convert_exact_int :
  convert 1000 3 30 = inl (Decimal.mk false 100 0).
Proof. vm_compute. reflexivity. Qed.

Example answered_cycle :
  cycle sample_config sample_prefix answered 2 =
  ([GetCurrentSummation (summation answered); Assign 0;
    GetInstantaneousDemand (demand answered); Assign 0;
    Publish (current_summation_state_topic sample_prefix)
      (ReadingJson (Decimal.mk false 12345 (-3))) true;
    Publish (instantaneous_demand_state_topic sample_prefix)
      (ReadingJson (Decimal.mk false 5 (-1))) true;
    Sleep 10], inl 0).
Proof. vm_compute. reflexivity. Qed.

(** ** The monad *)

Lemma bind_emit {A : Type} (e : event) (k : unit -> M A) :
  bind (emit e) k = (e :: fst (k tt), snd (k tt)).
Proof. unfold bind, emit. destruct (k tt); reflexivity. Qed.

Lemma bind_ret {A B : Type} (a : A) (k : A -> M B) : bind (ret a) k = k a.
Proof. unfold bind, ret. destruct (k a); reflexivity. Qed.

Lemma bind_value {A B : Type} (tr : list event) (a : A) (k : A -> M B) :
  bind (tr, inl a) k = (tr ++ fst (k a), snd (k a)).
Proof. unfold bind. destruct (k a); reflexivity. Qed.

Lemma count_app (p : event -> bool) (tr1 tr2 : list event) :
  count p (tr1 ++ tr2) = (count p tr1 + count p tr2)%nat.
Proof. unfold count. rewrite filter_app, List.length_app. reflexivity. Qed.

(** ** The non-response branch *)

Lemma non_response_under (cfg : Config) (env : CycleEnv) (c : Z) :
  c + 1 <= CLIENT_UNRESPONSIVE_MAX ->
  non_response cfg env c =
  ([Assign (c + 1); Sleep (interval_s cfg)], inl (c + 1)).
Proof.
  intros Hc. unfold non_response.
  destruct (Z.ltb_spec CLIENT_UNRESPONSIVE_MAX (c + 1)) as [Hlt | _]; [lia |].
  reflexivity.
Qed.

Lemma non_response_over (cfg : Config) (env : CycleEnv) (c : Z) :
  CLIENT_UNRESPONSIVE_MAX < c + 1 ->
  non_response cfg env c =
  ([Assign (c + 1); StopSerial; StartSerial (serial cfg) (reopened env);
    Assign 0], inl 0).
Proof.
  intros Hc. unfold non_response.
  destruct (Z.ltb_spec CLIENT_UNRESPONSIVE_MAX (c + 1)) as [_ | Hle]; [| lia].
  reflexivity.
Qed.

Lemma cycle_non_response (cfg : Config) (pfx : string) (env : CycleEnv)
    (c : Z) :
  genuine (summation env) = None ->
  cycle cfg pfx env c =
  (GetCurrentSummation (summation env) :: fst (non_response cfg env c),
   snd (non_response cfg env c)).
Proof.
  intros Hs. unfold cycle. rewrite Hs. apply bind_emit.
Qed.

Lemma poll_cons (cfg : Config) (pfx : string) (env : CycleEnv)
    (rest : list CycleEnv) (c : Z) :
  poll cfg pfx (env :: rest) c = bind (cycle cfg pfx env c) (poll cfg pfx rest).
Proof. reflexivity. Qed.

Lemma poll_backoff (cfg : Config) (pfx : string) (envs : list CycleEnv) :
  Forall (fun env => genuine (summation env) = None) envs ->
  forall c : Z,
    c + Z.of_nat (List.length envs) <= CLIENT_UNRESPONSIVE_MAX ->
    poll cfg pfx envs c =
    (backoff_trace cfg envs c, inl (c + Z.of_nat (List.length envs))).
Proof.
  induction 1 as [| env rest Hs _ IH]; intros c Hc.
  - simpl. unfold ret. f_equal. f_equal. lia.
  - rewrite poll_cons, (cycle_non_response _ _ _ _ Hs).
    cbn [List.length] in Hc.
    rewrite non_response_under by lia.
    cbn [fst snd]. rewrite bind_value, IH by lia.
    cbn [fst snd backoff_trace app List.length]. do 2 f_equal. lia.
Qed.

Lemma backoff_trace_counts (cfg : Config) (envs : list CycleEnv) (c : Z) :
  count is_sleep (backoff_trace cfg envs c) = List.length envs /\
  count is_stop_serial (backoff_trace cfg envs c) = 0%nat /\
  count is_start_serial (backoff_trace cfg envs c) = 0%nat /\
  count is_demand_request (backoff_trace cfg envs c) = 0%nat /\
  count is_publish (backoff_trace cfg envs c) = 0%nat.
Proof.
  revert c. unfold count.
  induction envs as [| env rest IH]; intros c; cbn; [tauto |].
  destruct (IH (c + 1)) as (H1 & H2 & H3 & H4 & H5). repeat split; congruence.
Qed.

(** C4. Starting from counter 0, [N <= CLIENT_UNRESPONSIVE_MAX]
    consecutive non-responses to the summation request trigger no
    reconnect: each pass consists of the request, the increment and one
    sleep of the configured interval (no demand request, no publish), so
    the loop sleeps [N] times and the counter is [N] after the [N]th. *)
Theorem few_non_responses_back_off (cfg : Config) (pfx : string)
    (envs : list CycleEnv) :
  Forall (fun env => genuine (summation env) = None) envs ->
  Z.of_nat (List.length envs) <= CLIENT_UNRESPONSIVE_MAX ->
  poll cfg pfx envs 0 =
    (backoff_trace cfg envs 0, inl (Z.of_nat (List.length envs))) /\
  count is_sleep (fst (poll cfg pfx envs 0)) = List.length envs /\
  count is_stop_serial (fst (poll cfg pfx envs 0)) = 0%nat /\
  count is_start_serial (fst (poll cfg pfx envs 0)) = 0%nat /\
  count is_demand_request (fst (poll cfg pfx envs 0)) = 0%nat /\
  count is_publish (fst (poll cfg pfx envs 0)) = 0%nat.
Proof.
  intros Hall Hlen.
  rewrite (poll_backoff cfg pfx envs Hall 0) by lia.
  split; [reflexivity |]. apply backoff_trace_counts.
Qed.

Lemma few_non_responses_back_off_witness :
  poll sample_config sample_prefix [silent true; silent true; silent true] 0 =
    ([GetCurrentSummation None; Assign 1; Sleep 10;
      GetCurrentSummation None; Assign 2; Sleep 10;
      GetCurrentSummation None; Assign 3; Sleep 10], inl 3).
Proof.
  apply (few_non_responses_back_off sample_config sample_prefix
           [silent true; silent true; silent true]).
  - repeat constructor.
  - vm_compute. discriminate.
Defined.

(** ** Passes in sequence *)

Lemma bind_assoc {A B C : Type} (m : M A) (f : A -> M B) (g : B -> M C) :
  bind (bind m f) g = bind m (fun a => bind (f a) g).
Proof.
  destruct m as [tr [a | e]]; [| reflexivity].
  unfold bind at 2 3. destruct (f a) as [tr1 [b | e1]].
  - unfold bind. destruct (g b) as [tr2 r]. rewrite app_assoc. reflexivity.
  - reflexivity.
Qed.

Lemma poll_app (cfg : Config) (pfx : string) (envs1 envs2 : list CycleEnv) :
  forall c : Z,
    poll cfg pfx (envs1 ++ envs2) c =
    bind (poll cfg pfx envs1 c) (poll cfg pfx envs2).
Proof.
  induction envs1 as [| env rest IH]; intros c.
  - cbn [app poll]. rewrite bind_ret. reflexivity.
  - cbn [app]. rewrite !poll_cons, bind_assoc.
    destruct (cycle cfg pfx env c) as [tr [c' | e]]; [| reflexivity].
    unfold bind at 1 3. rewrite IH. reflexivity.
Qed.

Lemma cycle_starts_with_request (cfg : Config) (pfx : string)
    (env : CycleEnv) (c : Z) :
  exists tl, fst (cycle cfg pfx env c) = GetCurrentSummation (summation env) :: tl.
Proof. unfold cycle. rewrite bind_emit. eexists. reflexivity. Qed.

Lemma poll_starts_with_request (cfg : Config) (pfx : string)
    (envs : list CycleEnv) (c : Z) :
  fst (poll cfg pfx envs c) = [] \/
  exists response tl, fst (poll cfg pfx envs c) = GetCurrentSummation response :: tl.
Proof.
  destruct envs as [| env rest]; [left; reflexivity | right].
  rewrite poll_cons.
  destruct (cycle_starts_with_request cfg pfx env c) as [tl Htl].
  destruct (cycle cfg pfx env c) as [tr [c' | e]]; cbn [fst] in Htl; subst tr.
  - rewrite bind_value. cbn [fst app]. eauto.
  - cbn. eauto.
Qed.

(** C3. Starting from counter 0, when more than
    [CLIENT_UNRESPONSIVE_MAX] summation requests in a row go unanswered,
    the first three passes back off, and the fourth, in which the counter
    reaches 4, calls [stop_serial] and [start_serial] exactly once each,
    sets the counter to 0 and ends without a sleep: whatever follows
    starts with the next summation request. *)
Theorem reset_when_threshold_exceeded (cfg : Config) (pfx : string)
    (envs : list CycleEnv) :
  Forall (fun env => genuine (summation env) = None) envs ->
  CLIENT_UNRESPONSIVE_MAX < Z.of_nat (List.length envs) ->
  exists (e1 e2 e3 e4 : CycleEnv) (after : list event),
    firstn 4 envs = [e1; e2; e3; e4] /\
    poll cfg pfx [e1; e2; e3] 0 = (backoff_trace cfg [e1; e2; e3] 0, inl 3) /\
    cycle cfg pfx e4 3 =
      ([GetCurrentSummation (summation e4); Assign 4; StopSerial;
        StartSerial (serial cfg) (reopened e4); Assign 0], inl 0) /\
    fst (poll cfg pfx envs 0) =
      backoff_trace cfg [e1; e2; e3] 0 ++ fst (cycle cfg pfx e4 3) ++ after /\
    (after = [] \/
     exists response tl, after = GetCurrentSummation response :: tl).
Proof.
  intros Hall Hlen.
  destruct envs as [| e1 [| e2 [| e3 [| e4 rest]]]];
    try (cbn in Hlen; unfold CLIENT_UNRESPONSIVE_MAX in Hlen; lia).
  inversion_clear Hall as [| ? ? H1 Hall1].
  inversion_clear Hall1 as [| ? ? H2 Hall2].
  inversion_clear Hall2 as [| ? ? H3 Hall3].
  inversion_clear Hall3 as [| ? ? H4 _].
  assert (Hthree : poll cfg pfx [e1; e2; e3] 0 =
                   (backoff_trace cfg [e1; e2; e3] 0, inl 3)).
  { apply (poll_backoff cfg pfx [e1; e2; e3]).
    - repeat constructor; assumption.
    - cbn. unfold CLIENT_UNRESPONSIVE_MAX. lia. }
  assert (Hfourth : cycle cfg pfx e4 3 =
      ([GetCurrentSummation (summation e4); Assign 4; StopSerial;
        StartSerial (serial cfg) (reopened e4); Assign 0], inl 0)).
  { rewrite (cycle_non_response _ _ _ _ H4), non_response_over.
    - reflexivity.
    - unfold CLIENT_UNRESPONSIVE_MAX. lia. }
  exists e1, e2, e3, e4, (fst (poll cfg pfx rest 0)).
  split; [reflexivity |]. split; [exact Hthree |]. split; [exact Hfourth |].
  split.
  - change (e1 :: e2 :: e3 :: e4 :: rest) with ([e1; e2; e3] ++ e4 :: rest).
    rewrite poll_app, Hthree, bind_value, poll_cons, Hfourth, bind_value.
    reflexivity.
  - apply poll_starts_with_request.
Qed.

Lemma reset_when_threshold_exceeded_witness :
  exists (e1 e2 e3 e4 : CycleEnv) (after : list event),
    firstn 4 [silent true; silent true; silent true; silent false; silent true] =
      [e1; e2; e3; e4] /\
    poll sample_config sample_prefix [e1; e2; e3] 0 =
      (backoff_trace sample_config [e1; e2; e3] 0, inl 3) /\
    cycle sample_config sample_prefix e4 3 =
      ([GetCurrentSummation (summation e4); Assign 4; StopSerial;
        StartSerial (serial sample_config) (reopened e4); Assign 0], inl 0) /\
    fst (poll sample_config sample_prefix
           [silent true; silent true; silent true; silent false; silent true] 0) =
      backoff_trace sample_config [e1; e2; e3] 0
        ++ fst (cycle sample_config sample_prefix e4 3) ++ after /\
    (after = [] \/
     exists response tl, after = GetCurrentSummation response :: tl).
Proof.
  apply (reset_when_threshold_exceeded sample_config sample_prefix
           [silent true; silent true; silent true; silent false; silent true]).
  - repeat constructor.
  - vm_compute. reflexivity.
Defined.

(** ** The counter *)

Lemma convert_reading_cases (r : RawReading) :
  (exists d, convert_reading r = ret d) \/
  (exists s, convert_reading r = raise (DecimalException s)).
Proof.
  unfold convert_reading.
  destruct (convert (raw_value r) (multiplier r) (divisor r)); eauto.
Qed.

Local Ltac counter_step :=
  repeat match goal with
    | |- 0 <= _ <= _ => unfold CLIENT_UNRESPONSIVE_MAX in *; lia
    | |- _ /\ _ => split
    | |- True => exact I
    | |- _ < _ -> _ =>
        let H := fresh in
        intros H; unfold CLIENT_UNRESPONSIVE_MAX in *;
        first [ exfalso; lia | do 2 eexists; reflexivity ]
    | |- _ <> None -> _ =>
        let H := fresh in
        intros H; first [ eexists; reflexivity | exfalso; congruence ]
    end.

Lemma cycle_counter_ok (cfg : Config) (pfx : string) (env : CycleEnv)
    (c : Z) (k : Z -> M Z) :
  0 <= c <= CLIENT_UNRESPONSIVE_MAX ->
  (forall c', 0 <= c' <= CLIENT_UNRESPONSIVE_MAX ->
              counter_ok cfg (fst (k c'))) ->
  counter_ok cfg (fst (bind (cycle cfg pfx env c) k)).
Proof.
  intros Hc Hk. unfold cycle.
  destruct (genuine (summation env)) as [r |] eqn:Hs.
  - destruct (convert_reading_cases r) as [[d Hd] | [s Hd]]; rewrite Hd.
    + destruct (genuine (demand env)) as [r' |] eqn:Hd'.
      * destruct (convert_reading_cases r') as [[d' Hr'] | [s' Hr']];
          rewrite Hr'.
        -- repeat first [rewrite bind_emit | rewrite bind_ret].
           cbn [fst snd ret]. rewrite bind_value. cbn [fst app counter_ok].
           counter_step.
           apply Hk. unfold CLIENT_UNRESPONSIVE_MAX. lia.
        -- cbn. counter_step.
      * repeat first [rewrite bind_emit | rewrite bind_ret].
        rewrite non_response_under by (unfold CLIENT_UNRESPONSIVE_MAX; lia).
        cbn [fst snd]. rewrite bind_value. cbn [fst app counter_ok].
        counter_step.
        apply Hk. unfold CLIENT_UNRESPONSIVE_MAX. lia.
    + cbn. counter_step.
  - rewrite bind_emit.
    destruct (Z_le_gt_dec (c + 1) CLIENT_UNRESPONSIVE_MAX) as [Hle | Hgt].
    + rewrite non_response_under by assumption.
      cbn [fst snd]. rewrite bind_value. cbn [fst app counter_ok].
      counter_step.
      apply Hk. lia.
    + rewrite non_response_over by lia.
      cbn [fst snd]. rewrite bind_value. cbn [fst app counter_ok].
      counter_step.
      apply Hk. unfold CLIENT_UNRESPONSIVE_MAX. lia.
Qed.

Lemma cycle_counter_range (cfg : Config) (pfx : string) (env : CycleEnv)
    (c c' : Z) :
  0 <= c <= CLIENT_UNRESPONSIVE_MAX ->
  snd (cycle cfg pfx env c) = inl c' ->
  0 <= c' <= CLIENT_UNRESPONSIVE_MAX.
Proof.
  intros Hc. unfold cycle.
  destruct (genuine (summation env)) as [r |].
  - destruct (convert_reading_cases r) as [[d Hd] | [s Hd]]; rewrite Hd.
    + destruct (genuine (demand env)) as [r' |].
      * destruct (convert_reading_cases r') as [[d' Hr'] | [s' Hr']];
          rewrite Hr'; cbn; intros H; inversion H;
          unfold CLIENT_UNRESPONSIVE_MAX; lia.
      * cbn. intros H; inversion H. unfold CLIENT_UNRESPONSIVE_MAX; lia.
    + cbn. discriminate.
  - rewrite bind_emit. cbn [snd].
    destruct (Z_le_gt_dec (c + 1) CLIENT_UNRESPONSIVE_MAX) as [Hle | Hgt].
    + rewrite non_response_under by assumption. cbn.
      intros H; inversion H. lia.
    + rewrite non_response_over by lia. cbn.
      intros H; inversion H. unfold CLIENT_UNRESPONSIVE_MAX; lia.
Qed.

Lemma poll_counter_ok (cfg : Config) (pfx : string)
    (envs : list CycleEnv) (c : Z) :
  0 <= c <= CLIENT_UNRESPONSIVE_MAX ->
  counter_ok cfg (fst (poll cfg pfx envs c)) /\
  (forall c', snd (poll cfg pfx envs c) = inl c' ->
              0 <= c' <= CLIENT_UNRESPONSIVE_MAX).
Proof.
  revert c. induction envs as [| env rest IH]; intros c Hc.
  - cbn. split; [exact I |]. intros c' H. inversion H. subst. exact Hc.
  - rewrite poll_cons. split.
    + apply cycle_counter_ok; [exact Hc |]. intros c' Hc'. apply IH, Hc'.
    + intros c' H.
      destruct (cycle cfg pfx env c) as [tr [c1 | e]] eqn:Hcycle.
      * rewrite bind_value in H. cbn [snd] in H.
        apply (proj2 (IH c1 (cycle_counter_range cfg pfx env c c1 Hc
                               ltac:(rewrite Hcycle; reflexivity)))), H.
      * cbn in H. discriminate.
Qed.

(** An answered summation request zeroes the counter whatever it was. *)
Lemma answered_summation_zeroes (cfg : Config) (pfx : string)
    (env : CycleEnv) (c : Z) (r : RawReading) :
  genuine (summation env) = Some r ->
  exists tl,
    fst (cycle cfg pfx env c) =
    GetCurrentSummation (summation env) :: Assign 0 :: tl.
Proof.
  intros Hs. unfold cycle. rewrite Hs, !bind_emit. eexists. reflexivity.
Qed.

(** ** Topics *)

Lemma eqb_append_left (p a b : string) :
  String.eqb (p ++ a) (p ++ b) = String.eqb a b.
Proof.
  induction p as [| ch p IH]; [reflexivity |].
  cbn. rewrite Ascii.eqb_refl. exact IH.
Qed.

(** ** One answered pass *)

Lemma cycle_demand_unanswered (cfg : Config) (pfx : string) (env : CycleEnv)
    (c : Z) (r : RawReading) (d : Decimal.t) :
  genuine (summation env) = Some r ->
  convert (raw_value r) (multiplier r) (divisor r) = inl d ->
  genuine (demand env) = None ->
  cycle cfg pfx env c =
  ([GetCurrentSummation (summation env); Assign 0;
    GetInstantaneousDemand (demand env); Assign 1;
    Sleep (interval_s cfg)], inl 1).
Proof.
  intros Hs Hd Hn. unfold cycle, convert_reading. rewrite Hs, Hd, Hn.
  reflexivity.
Qed.

Lemma cycle_both_answered (cfg : Config) (pfx : string) (env : CycleEnv)
    (c : Z) (r r' : RawReading) (d d' : Decimal.t) :
  genuine (summation env) = Some r ->
  convert (raw_value r) (multiplier r) (divisor r) = inl d ->
  genuine (demand env) = Some r' ->
  convert (raw_value r') (multiplier r') (divisor r') = inl d' ->
  cycle cfg pfx env c =
  ([GetCurrentSummation (summation env); Assign 0;
    GetInstantaneousDemand (demand env); Assign 0;
    Publish (current_summation_state_topic pfx) (ReadingJson d) true;
    Publish (instantaneous_demand_state_topic pfx) (ReadingJson d') true;
    Sleep (interval_s cfg)], inl 0).
Proof.
  intros Hs Hd Hs' Hd'. unfold cycle, convert_reading.
  rewrite Hs, Hd, Hs', Hd'. reflexivity.
Qed.

(** C2, as the code has it. In a pass whose summation request is
    answered (and converts to [d]), the counter is set to 0 right after
    the request and the reading is converted; the value is published,
    retained, to the summation state topic as [{"reading": float(d)}]
    when the demand request of the same pass is answered too (and
    converts); when the demand request goes unanswered, the pass
    publishes nothing: it counts the non-response and sleeps. *)
Theorem summation_published_with_demand (cfg : Config) (pfx : string)
    (env : CycleEnv) (c : Z) (r : RawReading) (d : Decimal.t) :
  genuine (summation env) = Some r ->
  convert (raw_value r) (multiplier r) (divisor r) = inl d ->
  (forall (r' : RawReading) (d' : Decimal.t),
      genuine (demand env) = Some r' ->
      convert (raw_value r') (multiplier r') (divisor r') = inl d' ->
      cycle cfg pfx env c =
      ([GetCurrentSummation (summation env); Assign 0;
        GetInstantaneousDemand (demand env); Assign 0;
        Publish (current_summation_state_topic pfx) (ReadingJson d) true;
        Publish (instantaneous_demand_state_topic pfx) (ReadingJson d') true;
        Sleep (interval_s cfg)], inl 0)) /\
  (genuine (demand env) = None ->
   cycle cfg pfx env c =
   ([GetCurrentSummation (summation env); Assign 0;
     GetInstantaneousDemand (demand env); Assign 1;
     Sleep (interval_s cfg)], inl 1)).
Proof.
  intros Hs Hd. split.
  - intros r' d' Hs' Hd'. exact (cycle_both_answered cfg pfx env c r r' d d' Hs Hd Hs' Hd').
  - intros Hn. exact (cycle_demand_unanswered cfg pfx env c r d Hs Hd Hn).
Qed.

Lemma summation_published_with_demand_witness :
  cycle sample_config sample_prefix answered 2 =
  ([GetCurrentSummation (summation answered); Assign 0;
    GetInstantaneousDemand (demand answered); Assign 0;
    Publish (current_summation_state_topic sample_prefix)
      (ReadingJson (Decimal.mk false 12345 (-3))) true;
    Publish (instantaneous_demand_state_topic sample_prefix)
      (ReadingJson (Decimal.mk false 5 (-1))) true;
    Sleep (interval_s sample_config)], inl 0).
Proof.
  apply (proj1 (summation_published_with_demand sample_config sample_prefix
                  answered 2 (sample_reading 12345 1 1000)
                  (Decimal.mk false 12345 (-3)) eq_refl eq_refl)
           (sample_reading 500 1 1000) (Decimal.mk false 5 (-1))).
  - reflexivity.
  - vm_compute. reflexivity.
Defined.

(** C2 as stated fails: the summation request of this pass is answered
    with a timestamp, the demand request is not, and the pass publishes
    nothing, to the summation state topic or anywhere else. *)
Lemma summation_answered_but_unpublished :
  genuine (summation demand_silent) = Some (sample_reading 12345 1 1000) /\
  cycle sample_config sample_prefix demand_silent 0 =
    ([GetCurrentSummation (summation demand_silent); Assign 0;
      GetInstantaneousDemand None; Assign 1; Sleep 10], inl 1) /\
  count is_publish
    (fst (cycle sample_config sample_prefix demand_silent 0)) = 0%nat.
Proof. vm_compute. repeat split. Qed.

(** ** Demand non-responses *)

Lemma count_bind {A B : Type} (p : event -> bool) (m : M A) (k : A -> M B) :
  count p (fst (bind m k)) =
  (count p (fst m) +
   match snd m with inl a => count p (fst (k a)) | inr _ => 0 end)%nat.
Proof.
  destruct m as [tr [a | e]].
  - rewrite bind_value. cbn [fst snd]. apply count_app.
  - cbn. lia.
Qed.

Lemma cycle_without_reset (cfg : Config) (pfx : string) (env : CycleEnv)
    (c : Z) :
  genuine (summation env) <> None ->
  count is_stop_serial (fst (cycle cfg pfx env c)) = 0%nat /\
  count is_start_serial (fst (cycle cfg pfx env c)) = 0%nat.
Proof.
  intros Hs. unfold cycle.
  destruct (genuine (summation env)) as [r |]; [| congruence].
  destruct (convert_reading_cases r) as [[d Hd] | [s Hd]]; rewrite Hd.
  - destruct (genuine (demand env)) as [r' |].
    + destruct (convert_reading_cases r') as [[d' Hr'] | [s' Hr']];
        rewrite Hr'; cbn; split; reflexivity.
    + cbn. split; reflexivity.
  - cbn. split; reflexivity.
Qed.

(** While every summation request is answered the connection is never
    reset, whatever the demand requests return. *)
Lemma no_reset_while_summation_answers (cfg : Config) (pfx : string)
    (envs : list CycleEnv) :
  Forall (fun env => genuine (summation env) <> None) envs ->
  forall c : Z,
    count is_stop_serial (fst (poll cfg pfx envs c)) = 0%nat /\
    count is_start_serial (fst (poll cfg pfx envs c)) = 0%nat.
Proof.
  induction 1 as [| env rest Hs _ IH]; intros c; [split; reflexivity |].
  rewrite poll_cons, !count_bind.
  destruct (cycle_without_reset cfg pfx env c Hs) as [H1 H2].
  rewrite H1, H2.
  destruct (snd (cycle cfg pfx env c)) as [c' | e]; [apply IH | split; reflexivity].
Qed.

(** C1 at the failing input: five passes in a row in which the summation
    request is answered and the demand request is not.  The demand
    request goes unanswered five times in a row, more than the
    threshold, yet [stop_serial] and [start_serial] are never called:
    every pass sets the counter to 0 and then to 1, and sleeps. *)
Theorem demand_silence_never_resets :
  let tr := fst (poll sample_config sample_prefix (repeat demand_silent 5) 0) in
  count is_demand_request tr = 5%nat /\
  count is_stop_serial tr = 0%nat /\
  count is_start_serial tr = 0%nat /\
  count is_sleep tr = 5%nat /\
  Forall (fun e => match e with Assign v => v <= 1 | _ => True end) tr /\
  snd (poll sample_config sample_prefix (repeat demand_silent 5) 0) = inl 1.
Proof.
  vm_compute. repeat split; repeat constructor; discriminate.
Qed.

(** ** Startup *)

Lemma startup_succeeds (cfg : Config) (env : StartupEnv) (info : DeviceInfo)
    (first : RawReading) :
  serial_opened env = true ->
  device_info env = Some info ->
  initial_demand env = Some first ->
  startup cfg env =
  (startup_trace cfg info first,
   inl {| session_prefix := mqtt_prefix cfg (meter_mac first);
          session_client :=
            {| will := Some (availability_topic
                               (mqtt_prefix cfg (meter_mac first)),
                             Text "offline", true);
               on_connect_hook :=
                 Some (on_connect (mqtt_prefix cfg (meter_mac first))) |} |}).
Proof.
  intros Hopen Hinfo Hfirst. unfold startup.
  rewrite Hopen, Hinfo, Hfirst. reflexivity.
Qed.

Lemma run_after_startup (cfg : Config) (env : StartupEnv)
    (cycles : list CycleEnv) (info : DeviceInfo) (first : RawReading) :
  serial_opened env = true ->
  device_info env = Some info ->
  initial_demand env = Some first ->
  run cfg env cycles =
  (startup_trace cfg info first
     ++ Assign 0 :: fst (poll cfg (mqtt_prefix cfg (meter_mac first)) cycles 0),
   snd (poll cfg (mqtt_prefix cfg (meter_mac first)) cycles 0)).
Proof.
  intros Hopen Hinfo Hfirst. unfold run.
  rewrite (startup_succeeds cfg env info first Hopen Hinfo Hfirst).
  rewrite bind_value, bind_emit. reflexivity.
Qed.

(** C10. When the first [start_serial] returns a falsy result, [run]
    raises before anything else is called: the process exits with status
    1, the loop is never entered and nothing is published. *)
Theorem startup_failure_exits (cfg : Config) (env : StartupEnv)
    (cycles : list CycleEnv) :
  serial_opened env = false ->
  main cfg env cycles =
    ([EmuCreate (timeout_s cfg); StartSerial (serial cfg) false], Exited 1) /\
  count is_publish (fst (main cfg env cycles)) = 0%nat.
Proof.
  intros Hclosed.
  assert (Hmain : main cfg env cycles =
    ([EmuCreate (timeout_s cfg); StartSerial (serial cfg) false], Exited 1)).
  { unfold main, run, startup. rewrite Hclosed. reflexivity. }
  rewrite Hmain. split; reflexivity.
Qed.

Lemma startup_failure_exits_witness :
  main sample_config
    {| serial_opened := false; device_info := Some sample_info;
       initial_demand := Some (sample_reading 500 1 1000) |}
    [answered; answered] =
    ([EmuCreate 5; StartSerial "/dev/ttyACM0" false], Exited 1) /\
  count is_publish
    (fst (main sample_config
            {| serial_opened := false; device_info := Some sample_info;
               initial_demand := Some (sample_reading 500 1 1000) |}
            [answered; answered])) = 0%nat.
Proof.
  apply (startup_failure_exits sample_config
           {| serial_opened := false; device_info := Some sample_info;
              initial_demand := Some (sample_reading 500 1 1000) |}
           [answered; answered]).
  reflexivity.
Defined.

(** C7 at the failing input: the device is silent for four passes, the
    [start_serial] of the reset returns [False], and a fifth pass
    follows.  No exception is raised and the process does not exit: the
    result of [start_serial] is dropped, the counter is set to 0, and the
    loop goes on with the next summation request and publishes. *)
Theorem failed_reopen_keeps_polling :
  let outcome :=
    main sample_config sample_startup
      [silent true; silent true; silent true; silent false; answered] in
  skipn 24 (fst outcome) =
    [StopSerial; StartSerial "/dev/ttyACM0" false; Assign 0;
     GetCurrentSummation (summation answered); Assign 0;
     GetInstantaneousDemand (demand answered); Assign 0;
     Publish (current_summation_state_topic sample_prefix)
       (ReadingJson (Decimal.mk false 12345 (-3))) true;
     Publish (instantaneous_demand_state_topic sample_prefix)
       (ReadingJson (Decimal.mk false 5 (-1))) true;
     Sleep 10] /\
  snd outcome = Polling 0.
Proof. vm_compute. split; reflexivity. Qed.

(** ** Discovery and availability *)

Lemma cycle_publishes_no_config (cfg : Config) (pfx : string)
    (env : CycleEnv) (c : Z) :
  count (is_publish_to (current_summation_config_topic pfx))
    (fst (cycle cfg pfx env c)) = 0%nat /\
  count (is_publish_to (instantaneous_demand_config_topic pfx))
    (fst (cycle cfg pfx env c)) = 0%nat.
Proof.
  unfold cycle.
  destruct (genuine (summation env)) as [r |].
  - destruct (convert_reading_cases r) as [[d Hd] | [s Hd]]; rewrite Hd.
    + destruct (genuine (demand env)) as [r' |].
      * destruct (convert_reading_cases r') as [[d' Hr'] | [s' Hr']];
          rewrite Hr'; [| split; reflexivity].
        unfold count, current_summation_config_topic,
          instantaneous_demand_config_topic, current_summation_state_topic,
          instantaneous_demand_state_topic.
        cbn [bind emit ret fst snd app filter is_publish_to].
        rewrite !eqb_append_left. split; reflexivity.
      * split; reflexivity.
    + split; reflexivity.
  - rewrite bind_emit. unfold non_response.
    destruct (CLIENT_UNRESPONSIVE_MAX <? c + 1); split; reflexivity.
Qed.

Lemma poll_publishes_no_config (cfg : Config) (pfx : string)
    (envs : list CycleEnv) :
  forall c : Z,
    count (is_publish_to (current_summation_config_topic pfx))
      (fst (poll cfg pfx envs c)) = 0%nat /\
    count (is_publish_to (instantaneous_demand_config_topic pfx))
      (fst (poll cfg pfx envs c)) = 0%nat.
Proof.
  induction envs as [| env rest IH]; intros c; [split; reflexivity |].
  rewrite poll_cons, !count_bind.
  destruct (cycle_publishes_no_config cfg pfx env c) as [H1 H2].
  rewrite H1, H2.
  destruct (snd (cycle cfg pfx env c)) as [c' | e];
    [apply IH | split; reflexivity].
Qed.

(** C8. In every run whose startup obtains the device info and the
    meter MAC, the trace is: a part that contains both requests and no
    publish to a config or state topic; then the two discovery
    dictionaries, each published retained to its config topic; then the
    counter is initialised and the polling loop runs, which never
    publishes to a config topic.  So each
    descriptor is published exactly once, and before any state. *)
Theorem discovery_published_once (cfg : Config) (env : StartupEnv)
    (cycles : list CycleEnv) (info : DeviceInfo) (first : RawReading) :
  serial_opened env = true ->
  device_info env = Some info ->
  initial_demand env = Some first ->
  let mac := meter_mac first in
  let pfx := mqtt_prefix cfg mac in
  let tr := fst (run cfg env cycles) in
  exists before : list event,
    tr = before
         ++ [Publish (current_summation_config_topic pfx)
               (DiscoveryJson
                  (current_summation_discovery_config pfx mac
                     (mqtt_device info))) true;
             Publish (instantaneous_demand_config_topic pfx)
               (DiscoveryJson
                  (instantaneous_demand_discovery_config pfx mac
                     (mqtt_device info))) true]
         ++ Assign 0 :: fst (poll cfg pfx cycles 0) /\
    In (GetDeviceInfo (Some info)) before /\
    In (GetInstantaneousDemand (Some first)) before /\
    count (is_publish_to (current_summation_config_topic pfx)) before = 0%nat /\
    count (is_publish_to (instantaneous_demand_config_topic pfx)) before = 0%nat /\
    count (is_publish_to (current_summation_state_topic pfx)) before = 0%nat /\
    count (is_publish_to (instantaneous_demand_state_topic pfx)) before = 0%nat /\
    count (is_publish_to (current_summation_config_topic pfx)) tr = 1%nat /\
    count (is_publish_to (instantaneous_demand_config_topic pfx)) tr = 1%nat.
Proof.
  intros Hopen Hinfo Hfirst mac pfx tr. subst tr.
  rewrite (run_after_startup cfg env cycles info first Hopen Hinfo Hfirst).
  cbn [fst]. fold mac. fold pfx.
  destruct (poll_publishes_no_config cfg pfx cycles 0) as [Hcs Hid].
  exists (firstn 10 (startup_trace cfg info first)).
  split; [reflexivity |].
  split; [cbn; tauto |]. split; [cbn; tauto |].
  rewrite !count_app. change (Assign 0 :: fst (poll cfg pfx cycles 0))
    with ([Assign 0] ++ fst (poll cfg pfx cycles 0)).
  rewrite !count_app, Hcs, Hid.
  unfold count, startup_trace, availability_topic,
    current_summation_config_topic, instantaneous_demand_config_topic,
    current_summation_state_topic, instantaneous_demand_state_topic.
  fold mac. fold pfx.
  cbn [firstn filter is_publish_to].
  rewrite !eqb_append_left. repeat split; reflexivity.
Qed.

Lemma discovery_published_once_witness :
  count (is_publish_to (current_summation_config_topic sample_prefix))
    (fst (run sample_config sample_startup [answered; demand_silent])) = 1%nat /\
  count (is_publish_to (instantaneous_demand_config_topic sample_prefix))
    (fst (run sample_config sample_startup [answered; demand_silent])) = 1%nat.
Proof.
  destruct (discovery_published_once sample_config sample_startup
              [answered; demand_silent] sample_info
              (sample_reading 500 1 1000) eq_refl eq_refl eq_refl)
    as (before & _ & _ & _ & _ & _ & _ & _ & Hcs & Hid).
  split; [exact Hcs | exact Hid].
Defined.

(** C9. In every startup that gets as far as the MQTT client, the last
    will ["offline"], retained, on the availability topic is set right
    before the one [connect] call of the run; after the connect and
    [loop_start], ["online"] is published retained to the same topic;
    and the hook left on the client publishes the same message on every
    later acknowledgement of a connect by the broker. *)
Theorem availability_announced (cfg : Config) (env : StartupEnv)
    (info : DeviceInfo) (first : RawReading) :
  serial_opened env = true ->
  device_info env = Some info ->
  initial_demand env = Some first ->
  let topic := availability_topic (mqtt_prefix cfg (meter_mac first)) in
  exists (before after : list event) (session : Session),
    startup cfg env =
      (before
         ++ [WillSet topic (Text "offline") true;
             Connect (hostname cfg) (port cfg);
             LoopStart;
             Publish topic (Text "online") true]
         ++ after, inl session) /\
    count is_connect before = 0%nat /\
    count is_connect after = 0%nat /\
    will (session_client session) = Some (topic, Text "offline", true) /\
    broker_connected (session_client session) =
      ([Publish topic (Text "online") true], inl tt).
Proof.
  intros Hopen Hinfo Hfirst topic.
  rewrite (startup_succeeds cfg env info first Hopen Hinfo Hfirst).
  exists (firstn 6 (startup_trace cfg info first)),
         (skipn 10 (startup_trace cfg info first)).
  eexists. split; [reflexivity |].
  repeat split; reflexivity.
Qed.

Lemma availability_announced_witness :
  exists (before after : list event) (session : Session),
    startup sample_config sample_startup =
      (before
         ++ [WillSet (availability_topic sample_prefix) (Text "offline") true;
             Connect "broker" 1883;
             LoopStart;
             Publish (availability_topic sample_prefix) (Text "online") true]
         ++ after, inl session) /\
    count is_connect before = 0%nat /\
    count is_connect after = 0%nat /\
    will (session_client session) =
      Some (availability_topic sample_prefix, Text "offline", true) /\
    broker_connected (session_client session) =
      ([Publish (availability_topic sample_prefix) (Text "online") true],
       inl tt).
Proof.
  apply (availability_announced sample_config sample_startup sample_info
           (sample_reading 500 1 1000)); reflexivity.
Defined.

(** ** Decimal arithmetic *)

Lemma pow10_pos (k : Z) : 0 <= k -> 0 < 10 ^ k.
Proof. intros Hk. apply Z.pow_pos_nonneg; lia. Qed.

Lemma pow10_succ (k : Z) : 0 <= k -> 10 ^ (k + 1) = 10 * 10 ^ k.
Proof. intros Hk. rewrite Z.pow_add_r by lia. change (10 ^ 1) with 10. lia. Qed.

Lemma ndigits_aux_spec (fuel : nat) :
  forall c : Z,
    0 < c ->
    Z.log2 c <= Z.of_nat fuel ->
    1 <= Decimal.ndigits_aux fuel c /\
    10 ^ (Decimal.ndigits_aux fuel c - 1) <= c < 10 ^ Decimal.ndigits_aux fuel c.
Proof.
  induction fuel as [| fuel IH]; intros c Hpos Hlog.
  - assert (Hlt : c < 2 ^ 1) by (apply Z.log2_lt_pow2; lia).
    change (2 ^ 1) with 2 in Hlt. cbn. lia.
  - cbn [Decimal.ndigits_aux].
    destruct (Z.ltb_spec c 10) as [Hsmall | Hbig]; [cbn; lia |].
    assert (Hlt : c < 2 ^ (Z.of_nat fuel + 2)) by (apply Z.log2_lt_pow2; lia).
    rewrite Z.pow_add_r in Hlt by lia. change (2 ^ 2) with 4 in Hlt.
    pose proof (Z.div_mod c 10 ltac:(lia)) as Hdiv.
    pose proof (Z.mod_pos_bound c 10 ltac:(lia)) as Hmod.
    assert (Hq : 0 < c / 10) by lia.
    assert (Hlogq : Z.log2 (c / 10) <= Z.of_nat fuel).
    { assert (Hq2 : c / 10 < 2 ^ (Z.of_nat fuel + 1)).
      { rewrite Z.pow_add_r by lia. change (2 ^ 1) with 2. lia. }
      apply Z.log2_lt_pow2 in Hq2; lia. }
    destruct (IH (c / 10) Hq Hlogq) as (Hone & Hlow & Hhigh).
    set (n := Decimal.ndigits_aux fuel (c / 10)) in *.
    replace (1 + n - 1) with ((n - 1) + 1) by lia.
    replace (1 + n) with (n + 1) by lia.
    rewrite !pow10_succ by lia. lia.
Qed.

Lemma ndigits_spec (c : Z) :
  0 < c ->
  1 <= Decimal.ndigits c /\
  10 ^ (Decimal.ndigits c - 1) <= c < 10 ^ Decimal.ndigits c.
Proof.
  intros Hpos. unfold Decimal.ndigits. apply ndigits_aux_spec; [exact Hpos |].
  rewrite Z2Nat.id by apply Z.log2_nonneg. lia.
Qed.

Lemma ndigits_le (c k : Z) : 0 < c -> c < 10 ^ k -> Decimal.ndigits c <= k.
Proof.
  intros Hpos Hlt.
  destruct (ndigits_spec c Hpos) as (Hone & Hlow & _).
  destruct (Z_le_gt_dec (Decimal.ndigits c) k) as [Hle | Hgt]; [exact Hle |].
  exfalso.
  assert (Hk : 0 <= k).
  { destruct (Z_le_gt_dec 0 k) as [H | H]; [exact H |].
    rewrite Z.pow_neg_r in Hlt by lia. lia. }
  assert (Hmono : 10 ^ k <= 10 ^ (Decimal.ndigits c - 1))
    by (apply Z.pow_le_mono_r; lia).
  lia.
Qed.

(** [_fix] leaves a decimal alone when its coefficient fits the
    precision and its exponent lies in the context's range. *)
Lemma fix_context_fits (d : Decimal.t) :
  0 <= Decimal.coeff d < 10 ^ Decimal.prec ->
  Decimal.Etiny <= Decimal.exp d <= Decimal.Etop ->
  Decimal.fix_context d = inl d.
Proof.
  intros [Hnonneg Hfit] [Hlow Hhigh]. unfold Decimal.fix_context.
  destruct (Z.eqb_spec (Decimal.coeff d) 0) as [Hzero | Hnz].
  - destruct d as [s c e].
    cbn [Decimal.coeff Decimal.exp Decimal.sign] in *. subst c. do 2 f_equal.
    unfold Decimal.Etiny, Decimal.Etop, Decimal.Emax, Decimal.Emin,
      Decimal.prec in *. lia.
  - pose proof (ndigits_le (Decimal.coeff d) Decimal.prec ltac:(lia) Hfit)
      as Hnd.
    destruct (Z.ltb_spec Decimal.Etop
                (Decimal.ndigits (Decimal.coeff d) + Decimal.exp d
                 - Decimal.prec)) as [Hover | _]; [lia |].
    destruct (Z.ltb_spec (Decimal.exp d)
                (Z.max (Decimal.ndigits (Decimal.coeff d) + Decimal.exp d
                        - Decimal.prec) Decimal.Etiny)) as [Hround | _];
      [lia | reflexivity].
Qed.

Lemma strip_zeros_spec (fuel : nat) :
  forall c e c' e' : Z,
    0 < c ->
    Decimal.strip_zeros fuel c e = (c', e') ->
    0 < c' /\
    e <= e' <= e + Z.of_nat fuel /\
    c = c' * 10 ^ (e' - e) /\
    (e' = e + Z.of_nat fuel \/ c' mod 10 <> 0).
Proof.
  induction fuel as [| fuel IH]; intros c e c' e' Hpos Hstrip.
  - cbn in Hstrip. inversion Hstrip; subst c' e'.
    rewrite Z.sub_diag. cbn [Z.of_nat]. change (10 ^ 0) with 1. lia.
  - cbn [Decimal.strip_zeros] in Hstrip.
    pose proof (Z.div_mod c 10 ltac:(lia)) as Hdiv.
    destruct (Z.eqb_spec (c mod 10) 0) as [Hzero | Hnz].
    + destruct (IH (c / 10) (e + 1) c' e' ltac:(lia) Hstrip)
        as (Hc' & Hrange & Hval & Hstop).
      split; [exact Hc' |]. split; [lia |]. split; [| lia].
      replace (e' - e) with ((e' - (e + 1)) + 1) by lia.
      rewrite pow10_succ by lia. lia.
    + inversion Hstrip; subst c' e'.
      rewrite Z.sub_diag. change (10 ^ 0) with 1. lia.
Qed.

Lemma pow10_lt_inv (a b : Z) : 0 <= b -> 10 ^ a < 10 ^ b -> a < b.
Proof. intros Hb Hlt. apply (Z.pow_lt_mono_r_iff 10); [lia | exact Hb | exact Hlt]. Qed.

Lemma pow10_split (a b : Z) : 0 <= b <= a -> 10 ^ a = 10 ^ (a - b) * 10 ^ b.
Proof.
  intros Hab. rewrite <- Z.pow_add_r by lia. f_equal. lia.
Qed.

(** A quotient of two integer-valued decimals that has an expansion
    [q / 10^k] of at most 28 digits is returned exactly. *)
Lemma truediv_exact (sa sb : bool) (ca cb q k : Z) :
  0 < ca < 10 ^ Decimal.prec ->
  0 < cb < 10 ^ Decimal.prec ->
  0 < q < 10 ^ Decimal.prec ->
  0 <= k ->
  q * cb = ca * 10 ^ k ->
  exists c' e' : Z,
    Decimal.truediv (Decimal.mk sa ca 0) (Decimal.mk sb cb 0) =
      inl (Decimal.mk (xorb sa sb) c' e') /\
    e' <= 0 /\ 0 < c' /\ c' * cb = ca * 10 ^ (- e').
Proof.
  intros Hca Hcb Hq Hk Hquot.
  destruct (ndigits_spec ca ltac:(lia)) as (Hla1 & Hla_low & Hla_high).
  destruct (ndigits_spec cb ltac:(lia)) as (Hlb1 & Hlb_low & Hlb_high).
  pose proof (ndigits_le ca Decimal.prec ltac:(lia) ltac:(lia)) as Hla.
  pose proof (ndigits_le cb Decimal.prec ltac:(lia) ltac:(lia)) as Hlb.
  unfold Decimal.truediv. cbn [Decimal.coeff Decimal.exp Decimal.sign].
  destruct (Z.eqb_spec cb 0) as [Hb0 | _]; [lia |].
  destruct (Z.eqb_spec ca 0) as [Ha0 | _]; [lia |].
  set (la := Decimal.ndigits ca) in *. set (lb := Decimal.ndigits cb) in *.
  set (shift := lb - la + Decimal.prec + 1).
  unfold Decimal.prec in *.
  assert (Hshift : 2 <= shift <= 56) by (unfold shift; lia).
  (* the expansion is shorter than the working precision *)
  assert (Hkshift : k < shift).
  { assert (Hlow : 10 ^ (la - 1 + k) <= ca * 10 ^ k).
    { rewrite Z.pow_add_r by lia.
      apply Z.mul_le_mono_nonneg_r; [pose proof (pow10_pos k Hk); lia | lia]. }
    assert (Hhigh : q * cb < 10 ^ (28 + lb)).
    { rewrite Z.pow_add_r by lia.
      apply Z.mul_lt_mono_nonneg; lia. }
    assert (Hlt : la - 1 + k < 28 + lb) by (apply pow10_lt_inv; lia).
    unfold shift. lia. }
  destruct (Z.leb_spec 0 shift) as [_ | Hneg]; [| lia].
  assert (Hn : ca * 10 ^ shift = q * 10 ^ (shift - k) * cb).
  { rewrite (pow10_split shift k) by lia.
    rewrite (Z.mul_comm (10 ^ (shift - k))), Z.mul_assoc, <- Hquot. ring. }
  rewrite Hn, Z_mod_mult, Z_div_mult by lia.
  cbn [Z.eqb].
  replace (0 - 0 - (0 - 0 - shift)) with shift by lia.
  replace (0 - 0 - shift) with (- shift) by lia.
  pose proof (pow10_pos (shift - k) ltac:(lia)) as Hpow.
  destruct (Decimal.strip_zeros (Z.to_nat shift) (q * 10 ^ (shift - k))
              (- shift)) as [c' e'] eqn:Hstrip.
  apply strip_zeros_spec in Hstrip; [| apply Z.mul_pos_pos; lia].
  rewrite Z2Nat.id in Hstrip by lia.
  destruct Hstrip as (Hc' & Hrange & Hval & Hstop).
  replace (e' - - shift) with (e' + shift) in Hval by lia.
  pose proof (pow10_pos (e' + shift) ltac:(lia)) as Hpow'.
  assert (Hexact : c' * cb = ca * 10 ^ (- e')).
  { apply (Z.mul_cancel_r _ _ (10 ^ (e' + shift))); [lia |].
    replace (ca * 10 ^ (- e') * 10 ^ (e' + shift)) with (ca * 10 ^ shift).
    - rewrite Hn, Hval. ring.
    - rewrite <- Z.mul_assoc, <- Z.pow_add_r by lia. do 2 f_equal. lia. }
  assert (Hfit : c' < 10 ^ 28).
  { destruct Hstop as [Hideal | Hlast].
    - replace (- e') with 0 in Hexact by lia.
      change (10 ^ 0) with 1 in Hexact.
      assert (Hmul : c' * 1 <= c' * cb)
        by (apply Z.mul_le_mono_nonneg_l; lia).
      lia.
    - destruct (Z_le_gt_dec (shift - k) (e' + shift)) as [Hge | Hlt].
      + enough (c' <= q) by lia.
        rewrite (pow10_split (e' + shift) (shift - k)) in Hval by lia.
        assert (Hcancel : q = c' * 10 ^ (e' + shift - (shift - k))).
        { apply (Z.mul_cancel_r _ _ (10 ^ (shift - k))); [lia |].
          rewrite Hval. ring. }
        pose proof (pow10_pos (e' + shift - (shift - k)) ltac:(lia)) as Hp.
        assert (Hmul : c' * 1 <= c' * 10 ^ (e' + shift - (shift - k)))
          by (apply Z.mul_le_mono_nonneg_l; lia).
        lia.
      + exfalso. apply Hlast.
        rewrite (pow10_split (shift - k) (e' + shift)) in Hval by lia.
        assert (Hcancel : c' = q * 10 ^ (shift - k - (e' + shift))).
        { apply (Z.mul_cancel_r _ _ (10 ^ (e' + shift))); [lia |].
          rewrite <- Hval. ring. }
        replace (shift - k - (e' + shift))
          with ((shift - k - (e' + shift) - 1) + 1) in Hcancel by lia.
        rewrite pow10_succ in Hcancel by lia.
        rewrite Hcancel.
        replace (q * (10 * 10 ^ (shift - k - (e' + shift) - 1)))
          with (q * 10 ^ (shift - k - (e' + shift) - 1) * 10) by ring.
        apply Z_mod_mult. }
  exists c', e'. split; [| split; [lia | split; [exact Hc' | exact Hexact]]].
  apply fix_context_fits; cbn [Decimal.coeff Decimal.exp].
  - unfold Decimal.prec. lia.
  - unfold Decimal.Etiny, Decimal.Etop, Decimal.Emax, Decimal.Emin,
      Decimal.prec. lia.
Qed.

Lemma signed_quotient (raw mult div c p : Z) :
  c * Z.abs div = Z.abs raw * Z.abs mult * p ->
  (if xorb (xorb (raw <? 0) (mult <? 0)) (div <? 0) then - c else c) * div =
  raw * mult * p.
Proof.
  intros H.
  destruct (Z.ltb_spec raw 0) as [Hr | Hr];
    destruct (Z.ltb_spec mult 0) as [Hm | Hm];
    destruct (Z.ltb_spec div 0) as [Hd | Hd]; cbn [xorb];
    rewrite ?(Z.abs_neq raw), ?(Z.abs_eq raw), ?(Z.abs_neq mult),
      ?(Z.abs_eq mult), ?(Z.abs_neq div), ?(Z.abs_eq div) in H by lia;
    lia.
Qed.

Lemma value_times_divisor (d : Decimal.t) (n div : Z) :
  Decimal.exp d <= 0 ->
  Decimal.scoeff d * div = n * 10 ^ (- Decimal.exp d) ->
  (Decimal.value d * inject_Z div == inject_Z n)%Q.
Proof.
  intros Hexp Hval. unfold Decimal.value.
  destruct (Z.leb_spec 0 (Decimal.exp d)) as [Hzero | Hneg].
  - assert (He : Decimal.exp d = 0) by lia. rewrite He in *.
    change (10 ^ (- 0)) with 1 in Hval. change (10 ^ 0) with 1.
    unfold Qeq, Qmult, inject_Z. cbn [Qnum Qden]. lia.
  - pose proof (pow10_pos (- Decimal.exp d) ltac:(lia)) as Hpow.
    unfold Qeq, Qmult, inject_Z. cbn [Qnum Qden].
    rewrite Pos.mul_1_r, Z2Pos.id by lia. lia.
Qed.

Lemma quotient_of_product (v : Q) (n div : Z) :
  div <> 0 ->
  (v * inject_Z div == inject_Z n)%Q ->
  (v == inject_Z n / inject_Z div)%Q.
Proof.
  intros Hdiv Hv. rewrite <- Hv. symmetry. apply Qdiv_mult_l.
  unfold Qeq, inject_Z. cbn [Qnum Qden]. lia.
Qed.

Lemma mul_of_int_fits (raw mult : Z) :
  Z.abs (raw * mult) < 10 ^ Decimal.prec ->
  Decimal.mul (Decimal.of_int raw) (Decimal.of_int mult) =
  inl (Decimal.mk (xorb (raw <? 0) (mult <? 0)) (Z.abs raw * Z.abs mult) 0).
Proof.
  intros Hfit. unfold Decimal.mul, Decimal.of_int.
  cbn [Decimal.sign Decimal.coeff Decimal.exp Z.add].
  apply fix_context_fits; cbn [Decimal.coeff Decimal.exp].
  - rewrite <- Z.abs_mul. lia.
  - unfold Decimal.Etiny, Decimal.Etop, Decimal.Emax, Decimal.Emin,
      Decimal.prec. lia.
Qed.

(** C6, as the code has it. When the divisor is not zero, the product
    [raw * multiplier] and the divisor have at most 28 digits, and the
    quotient has a decimal expansion [q / 10^k] of at most 28
    significant digits, the conversion returns a decimal whose value is
    exactly [raw * multiplier / divisor]. *)
Theorem convert_exact_within_precision (raw mult div q k : Z) :
  div <> 0 ->
  Z.abs (raw * mult) < 10 ^ Decimal.prec ->
  Z.abs div < 10 ^ Decimal.prec ->
  Z.abs q < 10 ^ Decimal.prec ->
  0 <= k ->
  q * div = raw * mult * 10 ^ k ->
  exists d : Decimal.t,
    convert raw mult div = inl d /\
    (Decimal.value d == inject_Z (raw * mult) / inject_Z div)%Q.
Proof.
  intros Hdiv Hprod Hdivfit Hq Hk Hquot.
  unfold convert. rewrite (mul_of_int_fits raw mult Hprod).
  destruct (Z.eq_dec (raw * mult) 0) as [Hzero | Hnz].
  - (* a zero product divides to a zero *)
    assert (Hcoeff : Z.abs raw * Z.abs mult = 0)
      by (rewrite <- Z.abs_mul, Hzero; reflexivity).
    unfold Decimal.truediv, Decimal.of_int.
    cbn [Decimal.coeff Decimal.exp Decimal.sign]. rewrite Hcoeff.
    destruct (Z.eqb_spec (Z.abs div) 0) as [Habs | _]; [lia |].
    cbn [Z.eqb Z.sub].
    rewrite fix_context_fits.
    + eexists. split; [reflexivity |].
      apply quotient_of_product; [exact Hdiv |].
      apply value_times_divisor; cbn [Decimal.exp]; [lia |].
      unfold Decimal.scoeff. cbn [Decimal.sign Decimal.coeff].
      rewrite Hzero. destruct (xorb _ _); reflexivity.
    + cbn [Decimal.coeff]. unfold Decimal.prec. lia.
    + cbn [Decimal.exp].
      unfold Decimal.Etiny, Decimal.Etop, Decimal.Emax, Decimal.Emin,
        Decimal.prec. lia.
  - assert (Hqnz : q <> 0).
    { intros ->. pose proof (pow10_pos k Hk) as Hp.
      rewrite Z.mul_0_l in Hquot. symmetry in Hquot.
      apply Z.mul_eq_0 in Hquot. lia. }
    assert (Habs : Z.abs q * Z.abs div = Z.abs raw * Z.abs mult * 10 ^ k).
    { rewrite <- !Z.abs_mul, Hquot, Z.abs_mul.
      rewrite (Z.abs_eq (10 ^ k)) by (pose proof (pow10_pos k Hk); lia).
      reflexivity. }
    unfold Decimal.of_int at 1.
    destruct (truediv_exact (xorb (raw <? 0) (mult <? 0)) (div <? 0)
                (Z.abs raw * Z.abs mult) (Z.abs div) (Z.abs q) k)
      as (c' & e' & Hdivide & He' & Hc' & Hexact);
      [rewrite <- Z.abs_mul; lia | lia | lia | exact Hk | exact Habs |].
    rewrite Hdivide. eexists. split; [reflexivity |].
    apply quotient_of_product; [exact Hdiv |].
    apply value_times_divisor; cbn [Decimal.exp]; [exact He' |].
    unfold Decimal.scoeff. cbn [Decimal.sign Decimal.coeff].
    apply signed_quotient. exact Hexact.
Qed.

Lemma convert_exact_within_precision_witness :
  exists d : Decimal.t,
    convert 12345 1 1000 = inl d /\
    (Decimal.value d == inject_Z (12345 * 1) / inject_Z 1000)%Q.
Proof.
  apply (convert_exact_within_precision 12345 1 1000 12345 3).
  - discriminate.
  - vm_compute. reflexivity.
  - vm_compute. reflexivity.
  - vm_compute. reflexivity.
  - discriminate.
  - vm_compute. reflexivity.
Defined.

(** C6 as stated fails: the divisor 3 is not zero, and the conversion
    of (1, 1, 3) is the 28-digit decimal 0.3333333333333333333333333333,
    which is not the rational 1/3. *)
Lemma one_third_is_rounded :
  3 <> 0 /\
  convert 1 1 3 =
    inl (Decimal.mk false 3333333333333333333333333333 (-28)) /\
  ~ (Decimal.value (Decimal.mk false 3333333333333333333333333333 (-28))
     == inject_Z (1 * 1) / inject_Z 3)%Q.
Proof.
  split; [discriminate |]. split; [vm_compute; reflexivity |].
  unfold Qeq. vm_compute. discriminate.
Qed.

(** * Further properties of [run] and [main] *)

(** ** What the loop calls *)

Lemma Forall_bind {A B : Type} (P : event -> Prop) (m : M A) (k : A -> M B) :
  Forall P (fst m) ->
  (forall a, Forall P (fst (k a))) ->
  Forall P (fst (bind m k)).
Proof.
  intros Hm Hk. destruct m as [tr [a | e]].
  - rewrite bind_value. cbn [fst] in *. apply Forall_app. split; [exact Hm | apply Hk].
  - exact Hm.
Qed.

Local Ltac each_event :=
  cbn; repeat first [apply Forall_cons | apply Forall_nil]; cbn; auto.

Lemma cycle_alphabet (cfg : Config) (pfx : string) (env : CycleEnv) (c : Z) :
  Forall (loop_event cfg pfx) (fst (cycle cfg pfx env c)).
Proof.
  unfold cycle.
  destruct (genuine (summation env)) as [r |].
  - destruct (convert_reading_cases r) as [[d Hd] | [s Hd]]; rewrite Hd.
    + destruct (genuine (demand env)) as [r' |].
      * destruct (convert_reading_cases r') as [[d' Hr'] | [s' Hr']];
          rewrite Hr'; each_event.
      * each_event.
    + each_event.
  - rewrite bind_emit. unfold non_response.
    destruct (CLIENT_UNRESPONSIVE_MAX <? c + 1); each_event.
Qed.

Lemma poll_alphabet (cfg : Config) (pfx : string) (envs : list CycleEnv)
    (c : Z) :
  Forall (loop_event cfg pfx) (fst (poll cfg pfx envs c)).
Proof.
  revert c. induction envs as [| env rest IH]; intros c; [constructor |].
  rewrite poll_cons. apply Forall_bind; [apply cycle_alphabet | exact IH].
Qed.

(** X1. Once the loop has started, from any counter value and over any
    answers of the device, it makes the two requests, resets the serial
    link on the configured port, sleeps the configured interval and
    publishes readings, retained, to the two state topics; it calls
    nothing else: no connect or will on the MQTT client, no publish to a
    config or availability topic, no other driver command. *)
Theorem loop_alphabet (cfg : Config) (pfx : string)
    (envs : list CycleEnv) (c : Z) :
  Forall (loop_event cfg pfx) (fst (poll cfg pfx envs c)) /\
  count is_connect (fst (poll cfg pfx envs c)) = 0%nat /\
  count (is_publish_to (availability_topic pfx))
    (fst (poll cfg pfx envs c)) = 0%nat.
Proof.
  pose proof (poll_alphabet cfg pfx envs c) as Hall.
  split; [exact Hall |].
  induction Hall as [| e tr He _ IH]; [split; reflexivity |].
  destruct IH as [IHc IHa]. unfold count in *.
  destruct e as [| | | | | | | | | | | topic p retain | |]; cbn in He |- *;
    try contradiction; try (split; assumption).
  destruct p; try contradiction.
  destruct He as [_ [Ht | Ht]]; subst topic;
    unfold availability_topic, current_summation_state_topic,
      instantaneous_demand_state_topic;
    rewrite eqb_append_left; cbn; split; assumption.
Qed.

(** ** Startup outcomes *)

Lemma startup_without_answer (cfg : Config) (env : StartupEnv) :
  serial_opened env = true ->
  initial_demand env = None \/ device_info env = None ->
  startup cfg env =
  ([EmuCreate (timeout_s cfg); StartSerial (serial cfg) true;
    SetScheduleDefault; GetDeviceInfo (device_info env);
    GetInstantaneousDemand (initial_demand env)], inr AttributeError).
Proof.
  intros Hopen Hmissing. unfold startup. rewrite Hopen.
  destruct (initial_demand env) as [first |]; [| reflexivity].
  destruct (device_info env) as [info |]; [| reflexivity].
  destruct Hmissing; discriminate.
Qed.

(** X2. When the serial port opens but the first demand request or the
    device-info request returns nothing, the attribute access on the
    missing response raises: both requests have been made, the process
    exits with status 1, and the MQTT client has not been created, so
    nothing is published and no last will is left at the broker. *)
Theorem startup_without_answer_exits (cfg : Config) (env : StartupEnv)
    (cycles : list CycleEnv) :
  serial_opened env = true ->
  initial_demand env = None \/ device_info env = None ->
  main cfg env cycles =
    ([EmuCreate (timeout_s cfg); StartSerial (serial cfg) true;
      SetScheduleDefault; GetDeviceInfo (device_info env);
      GetInstantaneousDemand (initial_demand env)], Exited 1) /\
  count is_client_call (fst (main cfg env cycles)) = 0%nat.
Proof.
  intros Hopen Hmissing.
  assert (Hmain : main cfg env cycles =
    ([EmuCreate (timeout_s cfg); StartSerial (serial cfg) true;
      SetScheduleDefault; GetDeviceInfo (device_info env);
      GetInstantaneousDemand (initial_demand env)], Exited 1)).
  { unfold main, run.
    rewrite (startup_without_answer cfg env Hopen Hmissing). reflexivity. }
  rewrite Hmain. split; reflexivity.
Qed.

Lemma startup_without_answer_exits_witness :
  snd (main sample_config
         {| serial_opened := true; device_info := Some sample_info;
            initial_demand := None |} [answered]) = Exited 1.
Proof.
  rewrite (proj1 (startup_without_answer_exits sample_config
                    {| serial_opened := true; device_info := Some sample_info;
                       initial_demand := None |} [answered] eq_refl
                    (or_introl eq_refl))).
  reflexivity.
Defined.

Lemma startup_retained (cfg : Config) (env : StartupEnv) :
  Forall (fun e => retained e = true) (fst (startup cfg env)).
Proof.
  unfold startup.
  destruct (serial_opened env); [| each_event].
  destruct (initial_demand env) as [first |]; [| each_event].
  destruct (device_info env) as [info |]; each_event.
Qed.

Lemma loop_event_retained (cfg : Config) (pfx : string) (e : event) :
  loop_event cfg pfx e -> retained e = true.
Proof.
  destruct e as [| | | | | | | | ? p ? | | | ? p ? | |]; cbn; try reflexivity;
    try contradiction.
  destruct p; try contradiction. intros [Hr _]. exact Hr.
Qed.

(** X3. Every message the program hands to the broker, the last will
    included, is retained, whatever the device answers and however long
    the loop runs. *)
Theorem every_message_retained (cfg : Config) (env : StartupEnv)
    (cycles : list CycleEnv) :
  Forall (fun e => retained e = true) (fst (run cfg env cycles)).
Proof.
  unfold run. apply Forall_bind; [apply startup_retained |].
  intros session. rewrite bind_emit. cbn [fst]. constructor; [reflexivity |].
  eapply Forall_impl; [| apply poll_alphabet].
  intros e. apply loop_event_retained.
Qed.

(** ** Accounting over the passes *)

Lemma non_response_cases (cfg : Config) (env : CycleEnv) (c : Z) :
  non_response cfg env c =
    ([Assign (c + 1); Sleep (interval_s cfg)], inl (c + 1)) /\
    c + 1 <= CLIENT_UNRESPONSIVE_MAX \/
  non_response cfg env c =
    ([Assign (c + 1); StopSerial; StartSerial (serial cfg) (reopened env);
      Assign 0], inl 0) /\
    CLIENT_UNRESPONSIVE_MAX < c + 1.
Proof.
  destruct (Z_le_gt_dec (c + 1) CLIENT_UNRESPONSIVE_MAX) as [Hle | Hgt].
  - left. split; [apply non_response_under; exact Hle | exact Hle].
  - right. split; [apply non_response_over; lia | lia].
Qed.

Lemma cycle_shape (cfg : Config) (pfx : string) (env : CycleEnv) (c : Z) :
  pass_shape cfg pfx env c (cycle cfg pfx env c).
Proof.
  destruct (genuine (summation env)) as [r |] eqn:Hs.
  - destruct (convert (raw_value r) (multiplier r) (divisor r))
      as [d | s] eqn:Hd.
    + destruct (genuine (demand env)) as [r' |] eqn:Hs'.
      * destruct (convert (raw_value r') (multiplier r') (divisor r'))
          as [d' | s'] eqn:Hd'.
        -- rewrite (cycle_both_answered cfg pfx env c r r' d d' Hs Hd Hs' Hd').
           eapply pass_published; eassumption.
        -- replace (cycle cfg pfx env c)
             with ([GetCurrentSummation (summation env); Assign 0;
                    GetInstantaneousDemand (demand env); Assign 0],
                   @inr Z exn (DecimalException s')).
           ++ eapply pass_demand_error; eassumption.
           ++ unfold cycle, convert_reading. rewrite Hs, Hd, Hs', Hd'.
              reflexivity.
      * rewrite (cycle_demand_unanswered cfg pfx env c r d Hs Hd Hs').
        eapply pass_demand_unanswered; eassumption.
    + replace (cycle cfg pfx env c)
        with ([GetCurrentSummation (summation env); Assign 0],
              @inr Z exn (DecimalException s)).
      * eapply pass_summation_error; eassumption.
      * unfold cycle, convert_reading. rewrite Hs, Hd. reflexivity.
  - rewrite (cycle_non_response cfg pfx env c Hs).
    destruct (non_response_cases cfg env c) as [[Heq Hc] | [Heq Hc]];
      rewrite Heq; cbn [fst snd].
    + apply pass_backoff; assumption.
    + apply pass_reset; assumption.
Qed.

Lemma state_topics_differ (pfx : string) :
  String.eqb (instantaneous_demand_state_topic pfx)
    (current_summation_state_topic pfx) = false /\
  String.eqb (current_summation_state_topic pfx)
    (instantaneous_demand_state_topic pfx) = false /\
  String.eqb (current_summation_state_topic pfx)
    (current_summation_state_topic pfx) = true /\
  String.eqb (instantaneous_demand_state_topic pfx)
    (instantaneous_demand_state_topic pfx) = true.
Proof.
  unfold instantaneous_demand_state_topic, current_summation_state_topic.
  rewrite !eqb_append_left. repeat split; reflexivity.
Qed.

(** X4. The two readings are only ever published together: in any stretch
    of the loop, the summation state topic and the demand state topic
    have received the same number of messages, and never more than one
    per pass. *)
Theorem readings_published_in_pairs (cfg : Config) (pfx : string)
    (envs : list CycleEnv) (c : Z) :
  count (is_publish_to (current_summation_state_topic pfx))
    (fst (poll cfg pfx envs c)) =
  count (is_publish_to (instantaneous_demand_state_topic pfx))
    (fst (poll cfg pfx envs c)) /\
  (count (is_publish_to (current_summation_state_topic pfx))
     (fst (poll cfg pfx envs c)) <= List.length envs)%nat.
Proof.
  revert c. induction envs as [| env rest IH]; intros c.
  - split; [reflexivity | apply Nat.le_refl].
  - rewrite poll_cons, !count_bind.
    destruct (state_topics_differ pfx) as (Hdc & Hcd & Hcc & Hdd).
    assert (Hpass :
      count (is_publish_to (current_summation_state_topic pfx))
        (fst (cycle cfg pfx env c)) =
      count (is_publish_to (instantaneous_demand_state_topic pfx))
        (fst (cycle cfg pfx env c)) /\
      (count (is_publish_to (current_summation_state_topic pfx))
         (fst (cycle cfg pfx env c)) <= 1)%nat).
    { destruct (cycle_shape cfg pfx env c); unfold count;
        cbn [fst filter is_publish_to List.length];
        rewrite ?Hdc, ?Hcd, ?Hcc, ?Hdd; cbn [List.length]; split; lia. }
    destruct Hpass as [Heq Hle]. rewrite <- Heq.
    destruct (snd (cycle cfg pfx env c)) as [c' | e].
    + destruct (IH c') as [IHeq IHle]. rewrite <- IHeq.
      split; [reflexivity | cbn [List.length]; lia].
    + split; [reflexivity | cbn [List.length]; lia].
Qed.

(** X5. A pass that ends without an exception has either slept once or
    reset the serial link once, never both and never neither: over
    passes that all complete, sleeps and resets add up to the number of
    passes. *)
Theorem each_pass_sleeps_or_resets (cfg : Config) (pfx : string)
    (envs : list CycleEnv) (c c' : Z) :
  snd (poll cfg pfx envs c) = inl c' ->
  (count is_sleep (fst (poll cfg pfx envs c)) +
   count is_stop_serial (fst (poll cfg pfx envs c)))%nat = List.length envs.
Proof.
  revert c. induction envs as [| env rest IH]; intros c Hdone.
  - reflexivity.
  - rewrite poll_cons in *. rewrite !count_bind.
    destruct (cycle_shape cfg pfx env c); cbn [fst snd] in *;
      try (cbn in Hdone; discriminate);
      rewrite bind_value in Hdone; cbn [snd] in Hdone;
      specialize (IH _ Hdone); unfold count in *;
      cbn [filter is_sleep is_stop_serial List.length]; lia.
Qed.

Lemma each_pass_sleeps_or_resets_witness :
  (count is_sleep
     (fst (poll sample_config sample_prefix
             [silent true; silent true; silent true; silent true; answered;
              demand_silent] 0)) +
   count is_stop_serial
     (fst (poll sample_config sample_prefix
             [silent true; silent true; silent true; silent true; answered;
              demand_silent] 0)))%nat = 6%nat.
Proof.
  apply (each_pass_sleeps_or_resets sample_config sample_prefix
           [silent true; silent true; silent true; silent true; answered;
            demand_silent] 0 1).
  vm_compute. reflexivity.
Defined.

Lemma cycle_reconnects_paired (cfg : Config) (pfx : string) (env : CycleEnv)
    (c : Z) (k : Z -> M Z) :
  (forall c', reconnects_paired cfg (fst (k c'))) ->
  reconnects_paired cfg (fst (bind (cycle cfg pfx env c) k)).
Proof.
  intros Hk.
  destruct (cycle_shape cfg pfx env c);
    try (rewrite bind_value; cbn [fst snd app reconnects_paired]);
    try (cbn [bind fst reconnects_paired]);
    repeat split; try apply Hk; eauto.
Qed.

(** X6. In the loop, [stop_serial] is never left alone: each call is
    followed at once by [start_serial] on the configured port, and
    [start_serial] is called only there, so the two are called equally
    often. *)
Theorem reset_closes_and_reopens (cfg : Config) (pfx : string)
    (envs : list CycleEnv) (c : Z) :
  reconnects_paired cfg (fst (poll cfg pfx envs c)) /\
  count is_start_serial (fst (poll cfg pfx envs c)) =
  count is_stop_serial (fst (poll cfg pfx envs c)).
Proof.
  revert c. induction envs as [| env rest IH]; intros c.
  - split; [exact I | reflexivity].
  - rewrite poll_cons. split.
    + apply cycle_reconnects_paired. intros c'. apply IH.
    + rewrite !count_bind.
      destruct (cycle_shape cfg pfx env c); cbn [fst snd]; unfold count;
        cbn [filter is_start_serial is_stop_serial List.length];
        try reflexivity;
        match goal with
        | |- context [poll cfg pfx rest ?c'] =>
            destruct (IH c') as [_ Heq]; unfold count in Heq; lia
        end.
Qed.

Lemma reset_rate_from (cfg : Config) (pfx : string) (envs : list CycleEnv) :
  forall c : Z,
    0 <= c ->
    4 * Z.of_nat (count is_stop_serial (fst (poll cfg pfx envs c)))
      + match snd (poll cfg pfx envs c) with inl c' => c' | inr _ => 0 end
    <= c + Z.of_nat (count is_summation_request (fst (poll cfg pfx envs c))) /\
    0 <= match snd (poll cfg pfx envs c) with inl c' => c' | inr _ => 0 end.
Proof.
  induction envs as [| env rest IH]; intros c Hc.
  - cbn. lia.
  - rewrite poll_cons.
    destruct (cycle_shape cfg pfx env c);
      try (cbn [bind fst snd]; unfold count;
           cbn [filter is_stop_serial is_summation_request List.length];
           lia);
      rewrite bind_value; cbn [fst snd]; rewrite !count_app;
      unfold count at 1 3;
      cbn [filter is_stop_serial is_summation_request List.length];
      match goal with
      | |- context [poll cfg pfx rest ?c'] =>
          destruct (IH c' ltac:(unfold CLIENT_UNRESPONSIVE_MAX in *; lia))
            as [IHrate IHpos]
      end;
      unfold CLIENT_UNRESPONSIVE_MAX in *; lia.
Qed.

(** X7. The serial link is reset at most once in four passes: from the
    start of the loop, four times the number of resets never exceeds
    the number of summation requests made. *)
Theorem reset_at_most_every_fourth_pass (cfg : Config) (pfx : string)
    (envs : list CycleEnv) :
  4 * Z.of_nat (count is_stop_serial (fst (poll cfg pfx envs 0)))
  <= Z.of_nat (count is_summation_request (fst (poll cfg pfx envs 0))) /\
  (count is_summation_request (fst (poll cfg pfx envs 0))
   <= List.length envs)%nat.
Proof.
  split.
  - destruct (reset_rate_from cfg pfx envs 0 ltac:(lia)) as [Hrate Hpos]. lia.
  - generalize 0. induction envs as [| env rest IH]; intros c.
    + apply Nat.le_refl.
    + rewrite poll_cons, count_bind.
      assert (Hone : count is_summation_request (fst (cycle cfg pfx env c))
                     = 1%nat)
        by (destruct (cycle_shape cfg pfx env c); reflexivity).
      rewrite Hone. cbn [List.length].
      destruct (snd (cycle cfg pfx env c)) as [c' | e];
        [specialize (IH c') |]; lia.
Qed.

(** X8. The counter is shared by the two requests: a pass whose demand
    request goes unanswered leaves it at 1, so three unanswered
    summation requests after it (not four) already reset the link. *)
Theorem demand_non_response_counts (cfg : Config) (pfx : string)
    (e0 e1 e2 e3 : CycleEnv) (c : Z) (r : RawReading) (d : Decimal.t) :
  genuine (summation e0) = Some r ->
  convert (raw_value r) (multiplier r) (divisor r) = inl d ->
  genuine (demand e0) = None ->
  genuine (summation e1) = None ->
  genuine (summation e2) = None ->
  genuine (summation e3) = None ->
  poll cfg pfx [e0; e1; e2; e3] c =
  ([GetCurrentSummation (summation e0); Assign 0;
    GetInstantaneousDemand (demand e0); Assign 1; Sleep (interval_s cfg);
    GetCurrentSummation (summation e1); Assign 2; Sleep (interval_s cfg);
    GetCurrentSummation (summation e2); Assign 3; Sleep (interval_s cfg);
    GetCurrentSummation (summation e3); Assign 4; StopSerial;
    StartSerial (serial cfg) (reopened e3); Assign 0], inl 0).
Proof.
  intros Hs Hd Hn H1 H2 H3.
  rewrite poll_cons, (cycle_demand_unanswered cfg pfx e0 c r d Hs Hd Hn).
  rewrite bind_value, poll_cons, (cycle_non_response _ _ _ _ H1).
  rewrite non_response_under by (unfold CLIENT_UNRESPONSIVE_MAX; lia).
  cbn [fst snd]. rewrite bind_value, poll_cons, (cycle_non_response _ _ _ _ H2).
  rewrite non_response_under by (unfold CLIENT_UNRESPONSIVE_MAX; lia).
  cbn [fst snd]. rewrite bind_value, poll_cons, (cycle_non_response _ _ _ _ H3).
  rewrite non_response_over by (unfold CLIENT_UNRESPONSIVE_MAX; lia).
  reflexivity.
Qed.

Lemma demand_non_response_counts_witness :
  snd (poll sample_config sample_prefix
         [demand_silent; silent true; silent true; silent true] 0) = inl 0 /\
  count is_stop_serial
    (fst (poll sample_config sample_prefix
            [demand_silent; silent true; silent true; silent true] 0)) = 1%nat.
Proof.
  rewrite (demand_non_response_counts sample_config sample_prefix
             demand_silent (silent true) (silent true) (silent true) 0
             (sample_reading 12345 1 1000) (Decimal.mk false 12345 (-3))
             eq_refl eq_refl eq_refl eq_refl eq_refl eq_refl).
  split; reflexivity.
Defined.

(** ** Topics and identifiers *)

Lemma append_left_differ (p a b : string) :
  String.eqb a b = false -> (p ++ a)%string <> (p ++ b)%string.
Proof.
  intros Hab Heq. apply String.eqb_eq in Heq.
  rewrite eqb_append_left in Heq. congruence.
Qed.

Local Ltac topics_differ :=
  unfold availability_topic, current_summation_config_topic,
    current_summation_state_topic, instantaneous_demand_config_topic,
    instantaneous_demand_state_topic;
  apply append_left_differ; reflexivity.

(** X9. Whatever the discovery prefix and the meter MAC, the five topics of
    a run are pairwise different, and so are the unique ids and the
    names of the two sensors: neither sensor can overwrite the other's
    retained messages. *)
Theorem topics_never_collide (pfx mac : string) (dev : MqttDevice) :
  NoDup [availability_topic pfx;
         current_summation_config_topic pfx;
         current_summation_state_topic pfx;
         instantaneous_demand_config_topic pfx;
         instantaneous_demand_state_topic pfx] /\
  disc_unique_id (current_summation_discovery_config pfx mac dev) <>
  disc_unique_id (instantaneous_demand_discovery_config pfx mac dev) /\
  disc_name (current_summation_discovery_config pfx mac dev) <>
  disc_name (instantaneous_demand_discovery_config pfx mac dev).
Proof.
  split; [| split].
  - repeat constructor; cbn [In]; intros H;
      repeat match goal with
        | H : _ \/ _ |- _ => destruct H as [H | H]
        | H : False |- _ => contradiction
        end;
      revert H; topics_differ.
  - cbn [disc_unique_id current_summation_discovery_config
           instantaneous_demand_discovery_config].
    apply append_left_differ. reflexivity.
  - cbn. intros H. inversion H.
Qed.

(** X10. In a run whose startup succeeds, every reading is published to the
    state topic announced in one of the two discovery dictionaries of
    that run, and the availability topic they announce is the one that
    carries the last will; the meter MAC of the first demand response
    fixes the topics for the whole run, whatever MAC later responses
    carry. *)
Theorem readings_go_to_announced_topics (cfg : Config) (env : StartupEnv)
    (cycles : list CycleEnv) (info : DeviceInfo) (first : RawReading)
    (topic : string) (d : Decimal.t) (retain : bool) :
  serial_opened env = true ->
  device_info env = Some info ->
  initial_demand env = Some first ->
  In (Publish topic (ReadingJson d) retain) (fst (run cfg env cycles)) ->
  let pfx := mqtt_prefix cfg (meter_mac first) in
  let summation_config :=
    current_summation_discovery_config pfx (meter_mac first)
      (mqtt_device info) in
  let demand_config :=
    instantaneous_demand_discovery_config pfx (meter_mac first)
      (mqtt_device info) in
  (topic = disc_state_topic summation_config \/
   topic = disc_state_topic demand_config) /\
  In (Publish (current_summation_config_topic pfx)
        (DiscoveryJson summation_config) true) (fst (run cfg env cycles)) /\
  In (Publish (instantaneous_demand_config_topic pfx)
        (DiscoveryJson demand_config) true) (fst (run cfg env cycles)) /\
  In (WillSet (disc_availability_topic summation_config) (Text "offline") true)
     (fst (run cfg env cycles)) /\
  disc_availability_topic demand_config =
  disc_availability_topic summation_config.
Proof.
  intros Hopen Hinfo Hfirst Hin pfx summation_config demand_config.
  rewrite (run_after_startup cfg env cycles info first Hopen Hinfo Hfirst)
    in *.
  cbn [fst] in *. fold pfx in Hin |- *.
  split.
  - apply in_app_or in Hin. destruct Hin as [Hstart | Hloop].
    + unfold startup_trace in Hstart. cbn [In] in Hstart.
      repeat match goal with
        | H : _ \/ _ |- _ => destruct H as [H | H]
        | H : False |- _ => contradiction
        | H : _ = Publish _ (ReadingJson _) _ |- _ => discriminate H
        end.
    + destruct Hloop as [Hassign | Hloop]; [discriminate Hassign |].
      pose proof (poll_alphabet cfg pfx cycles 0) as Hall.
      rewrite Forall_forall in Hall. apply Hall in Hloop.
      cbn in Hloop. exact (proj2 Hloop).
  - repeat split; apply in_or_app; left; unfold startup_trace; cbn [In];
      fold pfx; tauto.
Qed.

Lemma readings_go_to_announced_topics_witness :
  let first := sample_reading 500 1 1000 in
  let pfx := mqtt_prefix sample_config (meter_mac first) in
  current_summation_state_topic pfx =
    disc_state_topic
      (current_summation_discovery_config pfx (meter_mac first)
         (mqtt_device sample_info)) \/
  current_summation_state_topic pfx =
    disc_state_topic
      (instantaneous_demand_discovery_config pfx (meter_mac first)
         (mqtt_device sample_info)).
Proof.
  intros first pfx.
  assert (Hin : In (Publish (current_summation_state_topic pfx)
                      (ReadingJson (Decimal.mk false 12345 (-3))) true)
                   (fst (run sample_config sample_startup [answered]))).
  { vm_compute. tauto. }
  exact (proj1 (readings_go_to_announced_topics sample_config sample_startup
                  [answered] sample_info first
                  (current_summation_state_topic pfx)
                  (Decimal.mk false 12345 (-3)) true
                  eq_refl eq_refl eq_refl Hin)).
Defined.

(** ** A zero divisor *)

Lemma convert_zero_divisor (raw mult : Z) :
  exists s, convert raw mult 0 = inr s.
Proof.
  unfold convert.
  destruct (Decimal.mul (Decimal.of_int raw) (Decimal.of_int mult))
    as [p | s]; [| eauto].
  unfold Decimal.truediv, Decimal.of_int.
  cbn [Decimal.coeff Z.abs Z.eqb].
  destruct (Decimal.coeff p =? 0); eauto.
Qed.

(** X11. A summation response that carries a timestamp and a zero divisor is
    not treated as a non-response: the division raises, the exception
    leaves the loop, and the process exits with status 1 before the
    demand request of that pass, without publishing a state. *)
Theorem zero_divisor_exits (cfg : Config) (env : StartupEnv)
    (info : DeviceInfo) (first : RawReading) (pass : CycleEnv)
    (rest : list CycleEnv) (r : RawReading) :
  serial_opened env = true ->
  device_info env = Some info ->
  initial_demand env = Some first ->
  genuine (summation pass) = Some r ->
  divisor r = 0 ->
  main cfg env (pass :: rest) =
  (startup_trace cfg info first
     ++ [Assign 0; GetCurrentSummation (summation pass); Assign 0],
   Exited 1).
Proof.
  intros Hopen Hinfo Hfirst Hs Hzero.
  unfold main.
  rewrite (run_after_startup cfg env (pass :: rest) info first
             Hopen Hinfo Hfirst).
  destruct (convert_zero_divisor (raw_value r) (multiplier r)) as [s Hconv].
  rewrite <- Hzero in Hconv.
  assert (Hpass : cycle cfg (mqtt_prefix cfg (meter_mac first)) pass 0 =
                  ([GetCurrentSummation (summation pass); Assign 0],
                   inr (DecimalException s))).
  { unfold cycle, convert_reading. rewrite Hs, Hconv. reflexivity. }
  rewrite poll_cons, Hpass. reflexivity.
Qed.

Lemma zero_divisor_exits_witness :
  snd (main sample_config sample_startup [zero_divisor; answered]) = Exited 1.
Proof.
  rewrite (zero_divisor_exits sample_config sample_startup sample_info
             (sample_reading 500 1 1000) zero_divisor [answered]
             {| meter_mac := "0x0013500100bbbb"; raw_value := 12345;
                multiplier := 1; divisor := 0; timestamp := true |}
             eq_refl eq_refl eq_refl eq_refl eq_refl).
  reflexivity.
Defined.

(** ** The precision of a conversion *)

Lemma ndigits_nonneg (c : Z) :
  0 <= c -> 1 <= Decimal.ndigits c /\ c < 10 ^ Decimal.ndigits c.
Proof.
  intros Hc. destruct (Z.eq_dec c 0) as [-> | Hnz].
  - split; [discriminate | reflexivity].
  - destruct (ndigits_spec c ltac:(lia)) as (H1 & _ & H2). split; assumption.
Qed.

Lemma ndigits_bound (c k : Z) :
  0 <= c < 10 ^ k -> 1 <= k -> Decimal.ndigits c <= k.
Proof.
  intros [Hc Hlt] Hk. destruct (Z.eq_dec c 0) as [-> | Hnz].
  - change (Decimal.ndigits 0) with 1. exact Hk.
  - apply ndigits_le; lia.
Qed.

Lemma fix_context_precision (d r : Decimal.t) :
  0 <= Decimal.coeff d ->
  Decimal.fix_context d = inl r ->
  0 <= Decimal.coeff r < 10 ^ Decimal.prec.
Proof.
  intros Hnonneg. unfold Decimal.fix_context.
  destruct (Z.eqb_spec (Decimal.coeff d) 0) as [Hz | Hnz].
  - intros H. inversion H. cbn [Decimal.coeff].
    split; [lia | apply pow10_pos; discriminate].
  - destruct (ndigits_spec (Decimal.coeff d) ltac:(lia)) as (Hone & _ & Hhigh).
    set (nd := Decimal.ndigits (Decimal.coeff d)) in *.
    destruct (Z.ltb_spec Decimal.Etop (nd + Decimal.exp d - Decimal.prec))
      as [Hover | _]; [discriminate |].
    set (em := Z.max (nd + Decimal.exp d - Decimal.prec) Decimal.Etiny).
    assert (Hem : nd + Decimal.exp d - Decimal.prec <= em)
      by (unfold em; lia).
    destruct (Z.ltb_spec (Decimal.exp d) em) as [Hround | Hkeep].
    + destruct (Z.ltb_spec (nd + Decimal.exp d - em) 0) as [Hneg | Hdig].
      * replace (em - (em - 1)) with 1 by lia.
        change (1 / 10 ^ 1) with 0. change (1 mod 10 ^ 1) with 1.
        change (Decimal.round_half_even_up 0 1 1) with false.
        cbn [andb].
        destruct (Decimal.Etop <? em); [discriminate |].
        intros H. inversion H. cbn [Decimal.coeff].
        split; [lia | apply pow10_pos; discriminate].
      * set (k := em - Decimal.exp d).
        set (q := Decimal.coeff d / 10 ^ k).
        assert (Hk : 0 < k <= nd) by (unfold k; lia).
        pose proof (pow10_pos k ltac:(lia)) as Hpk.
        assert (Hq : 0 <= q < 10 ^ (nd - k)).
        { split; [apply Z.div_pos; lia |].
          apply Z.div_lt_upper_bound; [exact Hpk |].
          rewrite <- Z.pow_add_r by lia.
          replace (k + (nd - k)) with nd by lia. exact Hhigh. }
        assert (Hpow : 10 ^ (nd - k) <= 10 ^ Decimal.prec)
          by (apply Z.pow_le_mono_r; unfold k; lia).
        destruct (Decimal.round_half_even_up q (Decimal.coeff d mod 10 ^ k) k).
        -- cbn [andb].
           destruct (Z.ltb_spec Decimal.prec (Decimal.ndigits (q + 1)))
             as [Hcarry | Hfits].
           ++ destruct (Decimal.Etop <? em + 1); [discriminate |].
              intros H. inversion H. cbn [Decimal.coeff].
              split; [apply Z.div_pos; lia |].
              apply Z.div_lt_upper_bound; lia.
           ++ destruct (Decimal.Etop <? em); [discriminate |].
              intros H. inversion H. cbn [Decimal.coeff].
              destruct (ndigits_spec (q + 1) ltac:(lia)) as (_ & _ & Hq1).
              assert (Hmono : 10 ^ Decimal.ndigits (q + 1) <= 10 ^ Decimal.prec)
                by (apply Z.pow_le_mono_r; lia).
              lia.
        -- cbn [andb].
           destruct (Decimal.Etop <? em); [discriminate |].
           intros H. inversion H. cbn [Decimal.coeff]. lia.
    + intros H. inversion H. subst r.
      assert (Hmono : 10 ^ nd <= 10 ^ Decimal.prec)
        by (apply Z.pow_le_mono_r; lia).
      lia.
Qed.

Lemma strip_zeros_nonneg (fuel : nat) :
  forall c e : Z, 0 <= c -> 0 <= fst (Decimal.strip_zeros fuel c e).
Proof.
  induction fuel as [| fuel IH]; intros c e Hc; [exact Hc |].
  cbn [Decimal.strip_zeros].
  destruct (c mod 10 =? 0); [| exact Hc].
  apply IH. apply Z.div_pos; lia.
Qed.

Lemma truediv_precision (a b r : Decimal.t) :
  0 <= Decimal.coeff a ->
  0 <= Decimal.coeff b ->
  Decimal.truediv a b = inl r ->
  0 <= Decimal.coeff r < 10 ^ Decimal.prec.
Proof.
  intros Ha Hb. unfold Decimal.truediv.
  destruct (Z.eqb_spec (Decimal.coeff b) 0) as [Hb0 | Hbnz].
  - destruct (Decimal.coeff a =? 0); discriminate.
  - destruct (Z.eqb_spec (Decimal.coeff a) 0) as [Ha0 | Hanz].
    + apply fix_context_precision. cbn [Decimal.coeff]. lia.
    + set (shift := Decimal.ndigits (Decimal.coeff b)
                    - Decimal.ndigits (Decimal.coeff a) + Decimal.prec + 1).
      assert (Hquot :
        let '(n, m) :=
          if 0 <=? shift
          then (Decimal.coeff a * 10 ^ shift, Decimal.coeff b)
          else (Decimal.coeff a, Decimal.coeff b * 10 ^ (- shift)) in
        0 <= n / m).
      { destruct (Z.leb_spec 0 shift) as [Hs | Hs].
        - pose proof (pow10_pos shift Hs). apply Z.div_pos; [| lia].
          apply Z.mul_nonneg_nonneg; lia.
        - pose proof (pow10_pos (- shift) ltac:(lia)). apply Z.div_pos; [lia |].
          apply Z.mul_pos_pos; lia. }
      destruct (if 0 <=? shift
                then (Decimal.coeff a * 10 ^ shift, Decimal.coeff b)
                else (Decimal.coeff a, Decimal.coeff b * 10 ^ (- shift)))
        as [n m].
      destruct (n mod m =? 0).
      * pose proof (strip_zeros_nonneg
                      (Z.to_nat (Decimal.exp a - Decimal.exp b
                                 - (Decimal.exp a - Decimal.exp b - shift)))
                      (n / m) (Decimal.exp a - Decimal.exp b - shift) Hquot)
          as Hstrip.
        destruct (Decimal.strip_zeros _ (n / m) _) as [c' e'].
        apply fix_context_precision. exact Hstrip.
      * apply fix_context_precision. cbn [Decimal.coeff].
        destruct (n / m mod 5 =? 0); lia.
Qed.

(** X12. Whatever a reading carries, a conversion that returns a value
    returns a decimal of at most 28 significant digits: its coefficient
    is below 10^28. *)
Theorem convert_at_most_28_digits (raw mult div : Z) (d : Decimal.t) :
  convert raw mult div = inl d ->
  0 <= Decimal.coeff d < 10 ^ Decimal.prec.
Proof.
  unfold convert.
  destruct (Decimal.mul (Decimal.of_int raw) (Decimal.of_int mult))
    as [p | s] eqn:Hmul; [| discriminate].
  apply fix_context_precision in Hmul;
    [| cbn [Decimal.coeff Decimal.of_int];
       apply Z.mul_nonneg_nonneg; apply Z.abs_nonneg].
  apply truediv_precision; [lia |].
  cbn [Decimal.coeff Decimal.of_int]. apply Z.abs_nonneg.
Qed.

Lemma convert_at_most_28_digits_witness :
  0 <= Decimal.coeff (Decimal.mk false 6666666666666666666666666667 (-28))
    < 10 ^ Decimal.prec.
Proof.
  apply (convert_at_most_28_digits 2 1 3). vm_compute. reflexivity.
Defined.

(** ** Conversions that cannot raise *)

Lemma fix_context_in_range (d : Decimal.t) :
  0 <= Decimal.coeff d ->
  Decimal.ndigits (Decimal.coeff d) + Decimal.exp d - Decimal.prec
    < Decimal.Etop ->
  exists r, Decimal.fix_context d = inl r.
Proof.
  intros Hnonneg Hrange. unfold Decimal.fix_context.
  destruct (Decimal.coeff d =? 0); [eauto |].
  set (nd := Decimal.ndigits (Decimal.coeff d)) in *.
  destruct (Z.ltb_spec Decimal.Etop (nd + Decimal.exp d - Decimal.prec))
    as [Hover | _]; [lia |].
  set (em := Z.max (nd + Decimal.exp d - Decimal.prec) Decimal.Etiny).
  assert (Hem : em + 1 <= Decimal.Etop).
  { unfold em, Decimal.Etiny, Decimal.Etop, Decimal.Emax, Decimal.Emin,
      Decimal.prec in *. lia. }
  destruct (Decimal.exp d <? em); [| eauto].
  destruct (nd + Decimal.exp d - em <? 0).
  - match goal with
    | |- context [if ?up && ?carry then _ else _] => destruct (up && carry)
    end.
    + destruct (Z.ltb_spec Decimal.Etop (em + 1)); [lia | eauto].
    + destruct (Z.ltb_spec Decimal.Etop em); [lia | eauto].
  - match goal with
    | |- context [if ?up && ?carry then _ else _] => destruct (up && carry)
    end.
    + destruct (Z.ltb_spec Decimal.Etop (em + 1)); [lia | eauto].
    + destruct (Z.ltb_spec Decimal.Etop em); [lia | eauto].
Qed.

Lemma pow10_28_56 : 10 ^ 28 * 10 ^ 56 + 1 < 10 ^ 85.
Proof. reflexivity. Qed.

Lemma truediv_within_precision (sa sb : bool) (ca cb : Z) :
  0 <= ca < 10 ^ Decimal.prec ->
  0 < cb < 10 ^ Decimal.prec ->
  exists r,
    Decimal.truediv (Decimal.mk sa ca 0) (Decimal.mk sb cb 0) = inl r.
Proof.
  intros Hca Hcb. unfold Decimal.truediv.
  cbn [Decimal.coeff Decimal.exp Decimal.sign].
  destruct (Z.eqb_spec cb 0) as [Hb0 | _]; [lia |].
  destruct (Z.eqb_spec ca 0) as [Ha0 | Hanz].
  - apply fix_context_in_range; cbn [Decimal.coeff Decimal.exp]; [lia |].
    change (Decimal.ndigits 0) with 1.
    unfold Decimal.Etop, Decimal.Emax, Decimal.prec. lia.
  - destruct (ndigits_spec ca ltac:(lia)) as (Hla1 & _ & _).
    destruct (ndigits_spec cb ltac:(lia)) as (Hlb1 & _ & _).
    pose proof (ndigits_le ca Decimal.prec ltac:(lia) ltac:(lia)) as Hla.
    pose proof (ndigits_le cb Decimal.prec ltac:(lia) ltac:(lia)) as Hlb.
    set (shift := Decimal.ndigits cb - Decimal.ndigits ca + Decimal.prec + 1).
    unfold Decimal.prec in *.
    assert (Hshift : 2 <= shift <= 56) by (unfold shift; lia).
    destruct (Z.leb_spec 0 shift) as [_ | Hneg]; [| lia].
    pose proof (pow10_pos shift ltac:(lia)) as Hp.
    assert (Hp56 : 10 ^ shift <= 10 ^ 56) by (apply Z.pow_le_mono_r; lia).
    set (n := ca * 10 ^ shift).
    assert (Hn : 0 < n <= 10 ^ 28 * 10 ^ 56).
    { unfold n. split; [apply Z.mul_pos_pos; lia |].
      apply Z.mul_le_mono_nonneg; lia. }
    assert (Hc : 0 <= n / cb <= 10 ^ 28 * 10 ^ 56).
    { split; [apply Z.div_pos; lia |].
      apply Z.div_le_upper_bound; [lia |].
      assert (1 * n <= cb * n) by (apply Z.mul_le_mono_nonneg_r; lia).
      assert (cb * n <= cb * (10 ^ 28 * 10 ^ 56))
        by (apply Z.mul_le_mono_nonneg_l; lia).
      lia. }
    pose proof pow10_28_56 as Hbig.
    replace (0 - 0 - (0 - 0 - shift)) with shift by lia.
    replace (0 - 0 - shift) with (- shift) by lia.
    destruct (Z.eqb_spec (n mod cb) 0) as [Hexact | Hinexact].
    + assert (Hpos : 0 < n / cb).
      { pose proof (Z.div_mod n cb ltac:(lia)) as Hdm.
        rewrite Hexact in Hdm.
        destruct (Z.eq_dec (n / cb) 0) as [Hq0 | Hqnz]; [| lia].
        rewrite Hq0 in Hdm. lia. }
      destruct (Decimal.strip_zeros (Z.to_nat shift) (n / cb) (- shift))
        as [c' e'] eqn:Hstrip.
      apply strip_zeros_spec in Hstrip; [| exact Hpos].
      rewrite Z2Nat.id in Hstrip by lia.
      destruct Hstrip as (Hc' & Hrange & Hval & _).
      assert (Hle : c' <= n / cb).
      { pose proof (pow10_pos (e' - - shift) ltac:(lia)) as Hpe.
        assert (c' * 1 <= c' * 10 ^ (e' - - shift))
          by (apply Z.mul_le_mono_nonneg_l; lia).
        lia. }
      apply fix_context_in_range; cbn [Decimal.coeff Decimal.exp]; [lia |].
      pose proof (ndigits_bound c' 85 ltac:(lia) ltac:(lia)).
      unfold Decimal.Etop, Decimal.Emax, Decimal.prec. lia.
    + apply fix_context_in_range; cbn [Decimal.coeff Decimal.exp].
      * destruct (n / cb mod 5 =? 0); lia.
      * assert (Hnd : Decimal.ndigits
                        (if n / cb mod 5 =? 0 then n / cb + 1 else n / cb)
                      <= 85).
        { apply ndigits_bound; [| lia].
          destruct (n / cb mod 5 =? 0); lia. }
        unfold Decimal.Etop, Decimal.Emax, Decimal.prec. lia.
Qed.

Lemma convert_succeeds (raw mult div : Z) :
  div <> 0 ->
  Z.abs (raw * mult) < 10 ^ Decimal.prec ->
  Z.abs div < 10 ^ Decimal.prec ->
  exists d : Decimal.t, convert raw mult div = inl d.
Proof.
  intros Hdiv Hprod Hdivfit.
  unfold convert. rewrite (mul_of_int_fits raw mult Hprod).
  unfold Decimal.of_int at 1.
  apply truediv_within_precision.
  - rewrite <- Z.abs_mul. split; [apply Z.abs_nonneg | exact Hprod].
  - split; [apply Z.abs_pos; exact Hdiv | exact Hdivfit].
Qed.

(** X13. A reading with a non-zero divisor whose product and divisor have at
    most 28 digits always converts: none of the three trapped decimal
    signals (DivisionByZero, InvalidOperation, Overflow) is raised, and
    the result has at most 28 digits. *)
Theorem convert_never_raises (raw mult div : Z) :
  div <> 0 ->
  Z.abs (raw * mult) < 10 ^ Decimal.prec ->
  Z.abs div < 10 ^ Decimal.prec ->
  exists d : Decimal.t,
    convert raw mult div = inl d /\
    0 <= Decimal.coeff d < 10 ^ Decimal.prec.
Proof.
  intros Hdiv Hprod Hdivfit.
  destruct (convert_succeeds raw mult div Hdiv Hprod Hdivfit) as [d Hd].
  exists d. split; [exact Hd |].
  unfold convert in Hd. rewrite (mul_of_int_fits raw mult Hprod) in Hd.
  apply truediv_precision in Hd; [exact Hd | |];
    cbn [Decimal.coeff Decimal.of_int].
  - apply Z.mul_nonneg_nonneg; apply Z.abs_nonneg.
  - apply Z.abs_nonneg.
Qed.

Lemma convert_never_raises_witness :
  exists d : Decimal.t,
    convert 4294967295 4294967295 7 = inl d /\
    0 <= Decimal.coeff d < 10 ^ Decimal.prec.
Proof.
  apply (convert_never_raises 4294967295 4294967295 7).
  - discriminate.
  - reflexivity.
  - reflexivity.
Defined.

(** ** A loop that does not end *)





(** ** The accuracy of a conversion *)

(** Within the exponent range, [_fix] keeps a coefficient of at most 28
    digits and rounds a longer one to the nearest 28-digit coefficient:
    the result, scaled back, is within half a unit of the last kept
    digit. *)
Lemma fix_context_rounds (s : bool) (c e : Z) :
  0 < c < 10 ^ 100 ->
  -100 <= e <= 0 ->
  exists R E : Z,
    Decimal.fix_context (Decimal.mk s c e) = inl (Decimal.mk s R E) /\
    e <= E /\
    2 * Z.abs (R * 10 ^ (E - e) - c) <= 10 ^ (E - e) /\
    (c < 10 ^ Decimal.prec -> E = e /\ R = c) /\
    (10 ^ Decimal.prec <= c -> e < E).
Proof.
  intros Hc He. unfold Decimal.fix_context.
  cbn [Decimal.coeff Decimal.exp Decimal.sign].
  destruct (Z.eqb_spec c 0) as [Hz | _]; [lia |].
  destruct (ndigits_spec c ltac:(lia)) as (Hone & Hlow & Hhigh).
  pose proof (ndigits_le c 100 ltac:(lia) ltac:(lia)) as Hnd100.
  set (nd := Decimal.ndigits c) in *.
  unfold Decimal.Etop, Decimal.Etiny, Decimal.Emax, Decimal.Emin,
    Decimal.prec.
  destruct (Z.ltb_spec (999999 - 28 + 1) (nd + e - 28)) as [Hover | _];
    [lia |].
  rewrite Z.max_l by lia.
  destruct (Z.ltb_spec e (nd + e - 28)) as [Hround | Hkeep].
  - destruct (Z.ltb_spec (nd + e - (nd + e - 28)) 0) as [Hneg | _]; [lia |].
    replace (nd + e - 28 - e) with (nd - 28) by lia.
    set (k := nd - 28) in *.
    assert (Hk : 0 < k) by (unfold k; lia).
    pose proof (pow10_pos k ltac:(lia)) as Hpk.
    pose proof (Z.div_mod c (10 ^ k) ltac:(lia)) as Hdm.
    pose proof (Z.mod_pos_bound c (10 ^ k) Hpk) as Hr.
    set (q := c / 10 ^ k) in *. set (r := c mod 10 ^ k) in *.
    assert (Hq : 10 ^ 27 <= q < 10 ^ 28).
    { split.
      - apply Z.div_le_lower_bound; [exact Hpk |].
        rewrite <- Z.pow_add_r by lia.
        replace (k + 27) with (nd - 1) by (unfold k; lia). exact Hlow.
      - apply Z.div_lt_upper_bound; [exact Hpk |].
        rewrite <- Z.pow_add_r by lia.
        replace (k + 28) with nd by (unfold k; lia). exact Hhigh. }
    assert (Hfar : 10 ^ 28 <= c).
    { assert (Hmono : 10 ^ 28 <= 10 ^ (nd - 1))
        by (apply Z.pow_le_mono_r; lia).
      lia. }
    unfold Decimal.round_half_even_up.
    destruct (Z.ltb_spec (10 ^ k) (2 * r)) as [Habove | Hbelow];
      [| destruct (Z.eqb_spec (2 * r) (10 ^ k)) as [Hhalf | Hnothalf];
         [destruct (Z.odd q) |]];
      cbn [orb andb].
    + (* above one half: up *)
      destruct (Z.ltb_spec 28 (Decimal.ndigits (q + 1))) as [Hcarry | Hfits].
      * destruct (Z.ltb_spec (999999 - 28 + 1) (nd + e - 28 + 1)); [lia |].
        assert (Hq1 : q + 1 = 10 ^ 28).
        { destruct (Z.eq_dec (q + 1) (10 ^ 28)) as [Heq | Hne]; [exact Heq |].
          pose proof (ndigits_le (q + 1) 28 ltac:(lia) ltac:(lia)). lia. }
        exists ((q + 1) / 10), (nd + e - 28 + 1).
        split; [reflexivity |]. split; [lia |].
        replace (nd + e - 28 + 1 - e) with (k + 1) by (unfold k; lia).
        rewrite Hq1. change (10 ^ 28 / 10) with (10 ^ 27).
        rewrite pow10_succ by lia.
        replace (10 ^ 27 * (10 * 10 ^ k)) with (10 ^ 28 * 10 ^ k)
          by (change (10 ^ 28) with (10 ^ 27 * 10); ring).
        rewrite <- Hq1. split; [| split; lia].
        replace ((q + 1) * 10 ^ k - c) with (10 ^ k - r) by lia.
        rewrite Z.abs_eq by lia. lia.
      * destruct (Z.ltb_spec (999999 - 28 + 1) (nd + e - 28)); [lia |].
        exists (q + 1), (nd + e - 28).
        split; [reflexivity |]. split; [lia |].
        replace (nd + e - 28 - e) with k by (unfold k; lia).
        split; [| split; lia].
        replace ((q + 1) * 10 ^ k - c) with (10 ^ k - r) by lia.
        rewrite Z.abs_eq by lia. lia.
    + (* exactly one half, odd: up *)
      destruct (Z.ltb_spec 28 (Decimal.ndigits (q + 1))) as [Hcarry | Hfits].
      * destruct (Z.ltb_spec (999999 - 28 + 1) (nd + e - 28 + 1)); [lia |].
        assert (Hq1 : q + 1 = 10 ^ 28).
        { destruct (Z.eq_dec (q + 1) (10 ^ 28)) as [Heq | Hne]; [exact Heq |].
          pose proof (ndigits_le (q + 1) 28 ltac:(lia) ltac:(lia)). lia. }
        exists ((q + 1) / 10), (nd + e - 28 + 1).
        split; [reflexivity |]. split; [lia |].
        replace (nd + e - 28 + 1 - e) with (k + 1) by (unfold k; lia).
        rewrite Hq1. change (10 ^ 28 / 10) with (10 ^ 27).
        rewrite pow10_succ by lia.
        replace (10 ^ 27 * (10 * 10 ^ k)) with (10 ^ 28 * 10 ^ k)
          by (change (10 ^ 28) with (10 ^ 27 * 10); ring).
        rewrite <- Hq1. split; [| split; lia].
        replace ((q + 1) * 10 ^ k - c) with (10 ^ k - r) by lia.
        rewrite Z.abs_eq by lia. lia.
      * destruct (Z.ltb_spec (999999 - 28 + 1) (nd + e - 28)); [lia |].
        exists (q + 1), (nd + e - 28).
        split; [reflexivity |]. split; [lia |].
        replace (nd + e - 28 - e) with k by (unfold k; lia).
        split; [| split; lia].
        replace ((q + 1) * 10 ^ k - c) with (10 ^ k - r) by lia.
        rewrite Z.abs_eq by lia. lia.
    + (* exactly one half, even: down *)
      destruct (Z.ltb_spec (999999 - 28 + 1) (nd + e - 28)); [lia |].
      exists q, (nd + e - 28).
      split; [reflexivity |]. split; [lia |].
      replace (nd + e - 28 - e) with k by (unfold k; lia).
      split; [| split; lia].
      replace (q * 10 ^ k - c) with (- r) by lia.
      rewrite Z.abs_neq by lia. lia.
    + (* below one half: down *)
      destruct (Z.ltb_spec (999999 - 28 + 1) (nd + e - 28)); [lia |].
      exists q, (nd + e - 28).
      split; [reflexivity |]. split; [lia |].
      replace (nd + e - 28 - e) with k by (unfold k; lia).
      split; [| split; lia].
      replace (q * 10 ^ k - c) with (- r) by lia.
      rewrite Z.abs_neq by lia. lia.
  - exists c, e. split; [reflexivity |]. split; [lia |].
    rewrite Z.sub_diag. change (10 ^ 0) with 1.
    replace (c * 1 - c) with 0 by lia. cbn [Z.abs].
    split; [lia |]. split; [intros _; split; reflexivity |].
    intros Hfar.
    assert (Hmono : 10 ^ nd <= 10 ^ 28) by (apply Z.pow_le_mono_r; lia).
    lia.
Qed.

Lemma pow10_85_100 : 10 ^ 85 < 10 ^ 100.
Proof. reflexivity. Qed.

(** A quotient of two integer-valued decimals of at most 28 digits,
    scaled by the working shift of the division, is within one unit of
    the last digit of the result. *)
Lemma truediv_accurate (sa sb : bool) (ca cb : Z) :
  0 < ca < 10 ^ Decimal.prec ->
  0 < cb < 10 ^ Decimal.prec ->
  exists R E shift : Z,
    Decimal.truediv (Decimal.mk sa ca 0) (Decimal.mk sb cb 0) =
      inl (Decimal.mk (xorb sa sb) R E) /\
    0 <= shift /\ 0 <= E + shift /\
    Z.abs (R * 10 ^ (E + shift) * cb - ca * 10 ^ shift)
      < cb * 10 ^ (E + shift).
Proof.
  intros Hca Hcb. unfold Decimal.truediv.
  cbn [Decimal.coeff Decimal.exp Decimal.sign].
  destruct (Z.eqb_spec cb 0) as [Hb0 | _]; [lia |].
  destruct (Z.eqb_spec ca 0) as [Ha0 | _]; [lia |].
  destruct (ndigits_spec ca ltac:(lia)) as (Hla1 & Hla_low & Hla_high).
  destruct (ndigits_spec cb ltac:(lia)) as (Hlb1 & Hlb_low & Hlb_high).
  pose proof (ndigits_le ca Decimal.prec ltac:(lia) ltac:(lia)) as Hla.
  pose proof (ndigits_le cb Decimal.prec ltac:(lia) ltac:(lia)) as Hlb.
  set (la := Decimal.ndigits ca) in *. set (lb := Decimal.ndigits cb) in *.
  set (shift := lb - la + Decimal.prec + 1).
  unfold Decimal.prec in *.
  assert (Hshift : 2 <= shift <= 56) by (unfold shift; lia).
  destruct (Z.leb_spec 0 shift) as [_ | Hneg]; [| lia].
  pose proof (pow10_pos shift ltac:(lia)) as Hp.
  assert (Hp56 : 10 ^ shift <= 10 ^ 56) by (apply Z.pow_le_mono_r; lia).
  set (n := ca * 10 ^ shift).
  assert (Hn : 0 < n <= 10 ^ 28 * 10 ^ 56).
  { unfold n. split; [apply Z.mul_pos_pos; lia |].
    apply Z.mul_le_mono_nonneg; lia. }
  pose proof (Z.div_mod n cb ltac:(lia)) as Hdm.
  pose proof (Z.mod_pos_bound n cb ltac:(lia)) as Hrem.
  assert (Hc : 0 <= n / cb <= 10 ^ 28 * 10 ^ 56).
  { split; [apply Z.div_pos; lia |].
    apply Z.div_le_upper_bound; [lia |].
    assert (1 * n <= cb * n) by (apply Z.mul_le_mono_nonneg_r; lia).
    assert (cb * n <= cb * (10 ^ 28 * 10 ^ 56))
      by (apply Z.mul_le_mono_nonneg_l; lia).
    lia. }
  pose proof pow10_28_56 as Hbig. pose proof pow10_85_100 as Hbig'.
  replace (0 - 0 - (0 - 0 - shift)) with shift by lia.
  replace (0 - 0 - shift) with (- shift) by lia.
  set (c := n / cb) in *.
  destruct (Z.eqb_spec (n mod cb) 0) as [Hexact | Hinexact].
  - (* the quotient is an integer at the working precision *)
    rewrite Hexact, Z.add_0_r in Hdm.
    assert (Hpos : 0 < c).
    { destruct (Z.eq_dec c 0) as [Hq0 | Hqnz]; [| lia].
      rewrite Hq0 in Hdm. lia. }
    destruct (Decimal.strip_zeros (Z.to_nat shift) c (- shift))
      as [c' e'] eqn:Hstrip.
    apply strip_zeros_spec in Hstrip; [| exact Hpos].
    rewrite Z2Nat.id in Hstrip by lia.
    destruct Hstrip as (Hc' & Hrange & Hval & _).
    replace (e' - - shift) with (e' + shift) in Hval by lia.
    pose proof (pow10_pos (e' + shift) ltac:(lia)) as Hpj.
    assert (Hle : c' <= c).
    { assert (c' * 1 <= c' * 10 ^ (e' + shift))
        by (apply Z.mul_le_mono_nonneg_l; lia).
      lia. }
    destruct (fix_context_rounds (xorb sa sb) c' e' ltac:(lia) ltac:(lia))
      as (R & E & Hfix & HE & Herr & _ & _).
    exists R, E, shift. split; [exact Hfix |]. split; [lia |].
    split; [lia |].
    change (ca * 10 ^ shift) with n.
    pose proof (pow10_pos (E - e') ltac:(lia)) as Hpa.
    replace (E + shift) with ((E - e') + (e' + shift)) by lia.
    rewrite Z.pow_add_r by lia.
    set (A := 10 ^ (E - e')) in *. set (B := 10 ^ (e' + shift)) in *.
    replace (R * (A * B) * cb - n) with ((R * A - c') * (B * cb))
      by (rewrite Hdm, Hval; ring).
    rewrite Z.abs_mul, (Z.abs_eq (B * cb))
      by (apply Z.mul_nonneg_nonneg; lia).
    assert (Hbc : 0 < B * cb) by (apply Z.mul_pos_pos; lia).
    assert (Hhalf : 2 * Z.abs (R * A - c') * (B * cb) <= A * (B * cb))
      by (apply Z.mul_le_mono_nonneg_r; lia).
    assert (Hwhole : 0 < A * (B * cb)) by (apply Z.mul_pos_pos; lia).
    replace (cb * (A * B)) with (A * (B * cb)) by ring.
    lia.
  - (* the quotient is cut off: a sticky digit keeps the rounding right *)
    set (c_adj := if c mod 5 =? 0 then c + 1 else c).
    assert (Hadj : c <= c_adj <= c + 1)
      by (unfold c_adj; destruct (c mod 5 =? 0); lia).
    assert (Hfar : 10 ^ 28 <= c).
    { apply Z.div_le_lower_bound; [lia |].
      assert (Hnlow : 10 ^ (lb + 28) <= n).
      { unfold n. replace (lb + 28) with ((la - 1) + shift)
          by (unfold shift; lia).
        rewrite Z.pow_add_r by lia.
        apply Z.mul_le_mono_nonneg_r; lia. }
      rewrite Z.pow_add_r in Hnlow by lia.
      assert (cb * 10 ^ 28 <= 10 ^ lb * 10 ^ 28)
        by (apply Z.mul_le_mono_nonneg_r; lia).
      lia. }
    destruct (fix_context_rounds (xorb sa sb) c_adj (- shift)
                ltac:(lia) ltac:(lia))
      as (R & E & Hfix & HE & Herr & _ & Hrounded).
    specialize (Hrounded ltac:(unfold Decimal.prec; lia)).
    exists R, E, shift. split; [exact Hfix |]. split; [lia |].
    split; [lia |].
    change (ca * 10 ^ shift) with n.
    replace (E - - shift) with (E + shift) in Herr by lia.
    set (K := E + shift) in *.
    assert (HK : 1 <= K) by (unfold K; lia).
    assert (Hp10 : 10 <= 10 ^ K).
    { change 10 with (10 ^ 1) at 1. apply Z.pow_le_mono_r; lia. }
    set (D := R * 10 ^ K - c_adj) in *.
    replace (R * 10 ^ K * cb - n) with (D * cb + (c_adj * cb - n))
      by (unfold D; ring).
    pose proof (Z.abs_triangle (D * cb) (c_adj * cb - n)) as Htri.
    rewrite Z.abs_mul, (Z.abs_eq cb) in Htri by lia.
    assert (Hcut : Z.abs (c_adj * cb - n) < cb).
    { assert (Hcases : c_adj = c \/ c_adj = c + 1)
        by (unfold c_adj; destruct (c mod 5 =? 0); lia).
      destruct Hcases as [-> | ->].
      - replace (c * cb - n) with (- (n mod cb)) by lia.
        rewrite Z.abs_opp, Z.abs_eq by lia. lia.
      - replace ((c + 1) * cb - n) with (cb - n mod cb) by lia.
        rewrite Z.abs_eq by lia. lia. }
    assert (Hhalf : 2 * Z.abs D * cb <= 10 ^ K * cb)
      by (apply Z.mul_le_mono_nonneg_r; lia).
    assert (Hten : 10 * cb <= 10 ^ K * cb)
      by (apply Z.mul_le_mono_nonneg_r; lia).
    lia.
Qed.

Lemma abs_signed (raw mult div R X Y : Z) :
  Z.abs ((if xorb (xorb (raw <? 0) (mult <? 0)) (div <? 0) then - R else R)
         * X * div - raw * mult * Y) =
  Z.abs (R * X * Z.abs div - Z.abs raw * Z.abs mult * Y).
Proof.
  destruct (Z.ltb_spec raw 0) as [Hr | Hr];
    destruct (Z.ltb_spec mult 0) as [Hm | Hm];
    destruct (Z.ltb_spec div 0) as [Hd | Hd]; cbn [xorb];
    rewrite ?(Z.abs_neq raw), ?(Z.abs_eq raw), ?(Z.abs_neq mult),
      ?(Z.abs_eq mult), ?(Z.abs_neq div), ?(Z.abs_eq div) by lia;
    first [ f_equal; ring
          | rewrite <- Z.abs_opp; f_equal; ring ].
Qed.

Lemma close_in_Q (a b n div : Z) (P : positive) :
  div <> 0 ->
  Z.abs (a * div - n * Z.pos P) < b * Z.abs div ->
  (Qabs ((a # P) - inject_Z n / inject_Z div) < (b # P))%Q.
Proof.
  intros Hdiv Hclose.
  destruct div as [| p | p]; [contradiction | |];
    unfold Qlt, Qabs, Qminus, Qplus, Qopp, Qdiv, Qmult, Qinv, inject_Z;
    cbn [Qnum Qden]; cbn [Z.abs] in Hclose;
    rewrite Pos.mul_1_l, Pos2Z.inj_mul.
  - replace (a * Z.pos p + - (n * 1) * Z.pos P)
      with (a * Z.pos p - n * Z.pos P) by ring.
    replace (b * (Z.pos P * Z.pos p)) with (b * Z.pos p * Z.pos P) by ring.
    apply Z.mul_lt_mono_pos_r; [lia | exact Hclose].
  - replace (a * Z.pos p + - (n * Z.neg 1) * Z.pos P)
      with (- (a * Z.neg p - n * Z.pos P)) by lia.
    rewrite Z.abs_opp.
    replace (b * (Z.pos P * Z.pos p)) with (b * Z.pos p * Z.pos P) by ring.
    apply Z.mul_lt_mono_pos_r; [lia | exact Hclose].
Qed.

Lemma value_close (d : Decimal.t) (n div : Z) :
  div <> 0 ->
  (0 <= Decimal.exp d ->
   Z.abs (Decimal.scoeff d * 10 ^ Decimal.exp d * div - n * 1)
     < 10 ^ Decimal.exp d * Z.abs div) ->
  (Decimal.exp d < 0 ->
   Z.abs (Decimal.scoeff d * 1 * div - n * 10 ^ (- Decimal.exp d))
     < Z.abs div) ->
  (Qabs (Decimal.value d - inject_Z n / inject_Z div)
   < unit_in_last_place d)%Q.
Proof.
  intros Hdiv Hup Hdown. unfold unit_in_last_place, Decimal.value.
  cbn [Decimal.exp Decimal.scoeff Decimal.sign Decimal.coeff].
  destruct (Z.leb_spec 0 (Decimal.exp d)) as [Hnonneg | Hneg].
  - unfold inject_Z. apply close_in_Q; [exact Hdiv |].
    rewrite Z.mul_1_l. apply Hup. exact Hnonneg.
  - pose proof (pow10_pos (- Decimal.exp d) ltac:(lia)) as Hp.
    apply close_in_Q; [exact Hdiv |].
    rewrite Z2Pos.id by lia. rewrite Z.mul_1_l.
    rewrite <- (Z.mul_1_r (Decimal.scoeff d)). apply Hdown. exact Hneg.
Qed.

(** X15. A reading with a non-zero divisor whose product and divisor have at
    most 28 digits converts to a decimal that differs from the exact
    quotient [raw * multiplier / divisor] by less than one unit of its
    last digit. *)
Theorem convert_within_one_unit (raw mult div : Z) :
  div <> 0 ->
  Z.abs (raw * mult) < 10 ^ Decimal.prec ->
  Z.abs div < 10 ^ Decimal.prec ->
  exists d : Decimal.t,
    convert raw mult div = inl d /\
    (Qabs (Decimal.value d - inject_Z (raw * mult) / inject_Z div)
     < unit_in_last_place d)%Q.
Proof.
  intros Hdiv Hprod Hdivfit.
  unfold convert. rewrite (mul_of_int_fits raw mult Hprod).
  destruct (Z.eq_dec (raw * mult) 0) as [Hzero | Hnz].
  - assert (Hcoeff : Z.abs raw * Z.abs mult = 0)
      by (rewrite <- Z.abs_mul, Hzero; reflexivity).
    unfold Decimal.truediv, Decimal.of_int.
    cbn [Decimal.coeff Decimal.exp Decimal.sign]. rewrite Hcoeff.
    destruct (Z.eqb_spec (Z.abs div) 0) as [Habs | _]; [lia |].
    cbn [Z.eqb Z.sub].
    rewrite fix_context_fits.
    + eexists. split; [reflexivity |].
      apply value_close; [exact Hdiv | |];
        unfold Decimal.scoeff;
        cbn [Decimal.exp Decimal.sign Decimal.coeff];
        change (0 - 0) with 0; [intros _ | lia].
      rewrite Hzero. change (10 ^ 0) with 1.
      replace ((if xorb (xorb (raw <? 0) (mult <? 0)) (div <? 0)
                then - 0 else 0) * 1 * div - 0 * 1) with 0
        by (destruct (xorb _ _); reflexivity).
      cbn [Z.abs]. lia.
    + cbn [Decimal.coeff]. unfold Decimal.prec. lia.
    + cbn [Decimal.exp].
      unfold Decimal.Etiny, Decimal.Etop, Decimal.Emax, Decimal.Emin,
        Decimal.prec. lia.
  - unfold Decimal.of_int at 1.
    destruct (truediv_accurate (xorb (raw <? 0) (mult <? 0)) (div <? 0)
                (Z.abs raw * Z.abs mult) (Z.abs div))
      as (R & E & shift & Hdivide & Hshift & HK & Hclose);
      [rewrite <- Z.abs_mul; lia | lia |].
    rewrite Hdivide. eexists. split; [reflexivity |].
    pose proof (pow10_pos shift Hshift) as Hps.
    pose proof (pow10_pos (E + shift) HK) as Hpk.
    apply value_close; [exact Hdiv | |];
      unfold Decimal.scoeff;
      cbn [Decimal.exp Decimal.sign Decimal.coeff];
      intros HE; rewrite abs_signed.
    + (* a non-negative exponent: cancel the working shift *)
      pose proof (pow10_pos E HE) as Hpe.
      rewrite Z.pow_add_r in Hclose by lia.
      replace (R * (10 ^ E * 10 ^ shift) * Z.abs div
               - Z.abs raw * Z.abs mult * 10 ^ shift)
        with ((R * 10 ^ E * Z.abs div - Z.abs raw * Z.abs mult * 1)
              * 10 ^ shift) in Hclose by ring.
      rewrite Z.abs_mul, (Z.abs_eq (10 ^ shift)) in Hclose by lia.
      replace (Z.abs div * (10 ^ E * 10 ^ shift))
        with (10 ^ E * Z.abs div * 10 ^ shift) in Hclose by ring.
      apply Z.mul_lt_mono_pos_r in Hclose; [exact Hclose | exact Hps].
    + (* a negative exponent: cancel what is left of the shift *)
      pose proof (pow10_pos (- E) ltac:(lia)) as Hpe.
      replace (10 ^ shift) with (10 ^ (- E) * 10 ^ (E + shift)) in Hclose
        by (rewrite <- Z.pow_add_r by lia; f_equal; lia).
      replace (R * 10 ^ (E + shift) * Z.abs div
               - Z.abs raw * Z.abs mult * (10 ^ (- E) * 10 ^ (E + shift)))
        with ((R * 1 * Z.abs div - Z.abs raw * Z.abs mult * 10 ^ (- E))
              * 10 ^ (E + shift)) in Hclose by ring.
      rewrite Z.abs_mul, (Z.abs_eq (10 ^ (E + shift))) in Hclose by lia.
      apply Z.mul_lt_mono_pos_r in Hclose; [exact Hclose | exact Hpk].
Qed.

Lemma convert_within_one_unit_witness :
  exists d : Decimal.t,
    convert 2 1 3 = inl d /\
    (Qabs (Decimal.value d - inject_Z (2 * 1) / inject_Z 3)
     < unit_in_last_place d)%Q.
Proof.
  apply (convert_within_one_unit 2 1 3).
  - discriminate.
  - reflexivity.
  - reflexivity.
Defined.

(** ** Where published readings come from *)

Lemma in_bind {A B : Type} (e : event) (m : M A) (k : A -> M B) :
  In e (fst (bind m k)) ->
  In e (fst m) \/ exists a, snd m = inl a /\ In e (fst (k a)).
Proof.
  destruct m as [tr [a | x]].
  - rewrite bind_value. cbn [fst snd]. intros Hin.
    apply in_app_or in Hin. destruct Hin as [Hin | Hin]; [left; exact Hin |].
    right. exists a. split; [reflexivity | exact Hin].
  - cbn. intros Hin. left. exact Hin.
Qed.

(** X16. Every reading the loop publishes is the conversion of a response
    with a timestamp that the device gave in one of the passes, sent to
    the state topic of its own kind: a summation response never reaches
    the demand topic, and nothing is published that the device did not
    send. *)
Theorem readings_come_from_the_device (cfg : Config) (pfx : string)
    (envs : list CycleEnv) (c : Z) (topic : string) (d : Decimal.t)
    (retain : bool) :
  In (Publish topic (ReadingJson d) retain) (fst (poll cfg pfx envs c)) ->
  exists (pass : CycleEnv) (r : RawReading),
    In pass envs /\
    convert (raw_value r) (multiplier r) (divisor r) = inl d /\
    (topic = current_summation_state_topic pfx /\
     genuine (summation pass) = Some r \/
     topic = instantaneous_demand_state_topic pfx /\
     genuine (demand pass) = Some r).
Proof.
  revert c. induction envs as [| env rest IH]; intros c Hin;
    [contradiction |].
  rewrite poll_cons in Hin. apply in_bind in Hin.
  destruct Hin as [Hhere | (c' & _ & Hlater)].
  - exists env.
    destruct (cycle_shape cfg pfx env c) as
      [Hs Hle | Hs Hgt | r s Hs Hd | r d0 Hs Hd Hn | r r' d0 s Hs Hd Hs' Hd'
       | r r' d0 d' Hs Hd Hs' Hd'];
      cbn [fst In] in Hhere;
      repeat match goal with
        | H : _ \/ _ |- _ => destruct H as [H | H]
        | H : False |- _ => contradiction
        | H : _ = Publish _ (ReadingJson _) _ |- _ =>
            first [discriminate H | inversion H; subst; clear H]
        end.
    + exists r. split; [left; reflexivity |]. split; [exact Hd |].
      left. split; [reflexivity | exact Hs].
    + exists r'. split; [left; reflexivity |]. split; [exact Hd' |].
      right. split; [reflexivity | exact Hs'].
  - destruct (IH c' Hlater) as (pass & r & Hpass & Hconv & Hkind).
    exists pass, r. split; [right; exact Hpass |].
    split; [exact Hconv | exact Hkind].
Qed.

Lemma readings_come_from_the_device_witness :
  exists (pass : CycleEnv) (r : RawReading),
    In pass [silent true; answered] /\
    convert (raw_value r) (multiplier r) (divisor r) =
      inl (Decimal.mk false 5 (-1)) /\
    (instantaneous_demand_state_topic sample_prefix =
       current_summation_state_topic sample_prefix /\
     genuine (summation pass) = Some r \/
     instantaneous_demand_state_topic sample_prefix =
       instantaneous_demand_state_topic sample_prefix /\
     genuine (demand pass) = Some r).
Proof.
  apply (readings_come_from_the_device sample_config sample_prefix
           [silent true; answered] 0
           (instantaneous_demand_state_topic sample_prefix)
           (Decimal.mk false 5 (-1)) true).
  vm_compute. tauto.
Defined.

(** ** The counter from pass to pass *)

Lemma cycle_counter_after (cfg : Config) (pfx : string) (env : CycleEnv)
    (c0 c' : Z) :
  snd (cycle cfg pfx env c0) = inl c' ->
  c' = match genuine (summation env), genuine (demand env) with
       | Some _, Some _ => 0
       | Some _, None => 1
       | None, _ =>
           if CLIENT_UNRESPONSIVE_MAX <? c0 + 1 then 0 else c0 + 1
       end.
Proof.
  intros Hdone.
  destruct (cycle_shape cfg pfx env c0) as
    [Hs Hle | Hs Hgt | r s Hs Hd | r d Hs Hd Hn | r r' d s Hs Hd Hs' Hd'
     | r r' d d' Hs Hd Hs' Hd'];
    cbn [snd] in Hdone; try discriminate Hdone;
    inversion Hdone; subst c'; rewrite Hs.
  - destruct (Z.ltb_spec CLIENT_UNRESPONSIVE_MAX (c0 + 1)); [lia | reflexivity].
  - destruct (Z.ltb_spec CLIENT_UNRESPONSIVE_MAX (c0 + 1)); [reflexivity | lia].
  - rewrite Hn. reflexivity.
  - rewrite Hs'. reflexivity.
Qed.

Lemma poll_last_pass (cfg : Config) (pfx : string) (before : list CycleEnv)
    (env : CycleEnv) (c c0 c' : Z) :
  snd (poll cfg pfx before c) = inl c0 ->
  snd (poll cfg pfx (before ++ [env]) c) = inl c' ->
  snd (cycle cfg pfx env c0) = inl c'.
Proof.
  intros Hbefore Hall. rewrite poll_app in Hall.
  destruct (poll cfg pfx before c) as [tr [x | e]]; cbn [snd] in Hbefore;
    [| discriminate Hbefore].
  inversion Hbefore; subst x.
  rewrite bind_value in Hall. cbn [snd] in Hall.
  rewrite poll_cons in Hall.
  destruct (cycle cfg pfx env c0) as [tr' [y | e]].
  - rewrite bind_value in Hall. exact Hall.
  - cbn in Hall. discriminate Hall.
Qed.

(** C5. From every counter value the loop can start a pass with, and
    over any answers of the device: in the trace, an answered request of
    either kind is followed at once by the assignment of 0, every value
    the counter takes lies in [0, CLIENT_UNRESPONSIVE_MAX + 1], and a
    value above the threshold is zeroed right after the reconnect; the
    passes end with a counter in [0, CLIENT_UNRESPONSIVE_MAX]; and the
    counter the next pass starts with is fixed by the last pass: 0 when
    both requests were answered, 1 when the summation request was
    answered and the demand request was not (zeroed by the answer, then
    counted once), and after an unanswered summation request the
    previous value plus one, or 0 when that exceeds the threshold.  The
    same holds for a single pass from any prior counter value
    whatsoever, where an answered summation request is followed at once
    by the assignment of 0, and so is an answered demand request. *)
Theorem counter_stays_in_range (cfg : Config) (pfx : string)
    (envs : list CycleEnv) (c : Z) :
  0 <= c <= CLIENT_UNRESPONSIVE_MAX ->
  counter_ok cfg (fst (poll cfg pfx envs c)) /\
  (forall c', snd (poll cfg pfx envs c) = inl c' ->
              0 <= c' <= CLIENT_UNRESPONSIVE_MAX) /\
  (forall (before : list CycleEnv) (env : CycleEnv) (c0 c' : Z),
      envs = before ++ [env] ->
      snd (poll cfg pfx before c) = inl c0 ->
      snd (poll cfg pfx envs c) = inl c' ->
      c' = match genuine (summation env), genuine (demand env) with
           | Some _, Some _ => 0
           | Some _, None => 1
           | None, _ =>
               if CLIENT_UNRESPONSIVE_MAX <? c0 + 1 then 0 else c0 + 1
           end) /\
  (forall (env : CycleEnv) (c0 c' : Z),
      snd (cycle cfg pfx env c0) = inl c' ->
      c' = match genuine (summation env), genuine (demand env) with
           | Some _, Some _ => 0
           | Some _, None => 1
           | None, _ =>
               if CLIENT_UNRESPONSIVE_MAX <? c0 + 1 then 0 else c0 + 1
           end) /\
  (forall (env : CycleEnv) (c0 : Z) (r : RawReading),
      genuine (summation env) = Some r ->
      exists tl,
        fst (cycle cfg pfx env c0) =
        GetCurrentSummation (summation env) :: Assign 0 :: tl) /\
  (forall (env : CycleEnv) (c0 : Z) (r r' : RawReading) (d : Decimal.t),
      genuine (summation env) = Some r ->
      convert (raw_value r) (multiplier r) (divisor r) = inl d ->
      genuine (demand env) = Some r' ->
      exists tl,
        fst (cycle cfg pfx env c0) =
        GetCurrentSummation (summation env) :: Assign 0
          :: GetInstantaneousDemand (demand env) :: Assign 0 :: tl).
Proof.
  intros Hc.
  destruct (poll_counter_ok cfg pfx envs c Hc) as [Hok Hrange].
  split; [exact Hok |]. split; [exact Hrange |]. split; [| split; [| split]].
  - intros before env c0 c' Henvs Hbefore Hall. subst envs.
    apply (cycle_counter_after cfg pfx env c0 c').
    exact (poll_last_pass cfg pfx before env c c0 c' Hbefore Hall).
  - intros env c0 c'. apply cycle_counter_after.
  - intros env c0 r Hs.
    exact (answered_summation_zeroes cfg pfx env c0 r Hs).
  - intros env c0 r r' d Hs Hd Hs'.
    destruct (convert (raw_value r') (multiplier r') (divisor r'))
      as [d' | s'] eqn:Hd'.
    + rewrite (cycle_both_answered cfg pfx env c0 r r' d d' Hs Hd Hs' Hd').
      eexists. reflexivity.
    + unfold cycle, convert_reading. rewrite Hs, Hd, Hs', Hd'.
      eexists. reflexivity.
Qed.

Lemma counter_stays_in_range_witness :
  counter_ok sample_config
    (fst (poll sample_config sample_prefix
            [silent true; demand_silent; silent true; silent true;
             silent true; silent true; answered] 2)) /\
  (forall c', snd (poll sample_config sample_prefix
                     [silent true; demand_silent; silent true; silent true;
                      silent true; silent true; answered] 2) = inl c' ->
              0 <= c' <= CLIENT_UNRESPONSIVE_MAX) /\
  (forall c', snd (poll sample_config sample_prefix
                     [silent true; demand_silent; silent true; silent true;
                      silent true; silent true; answered] 2) = inl c' ->
              c' = 0).
Proof.
  destruct (counter_stays_in_range sample_config sample_prefix
              [silent true; demand_silent; silent true; silent true;
               silent true; silent true; answered] 2
              ltac:(unfold CLIENT_UNRESPONSIVE_MAX; lia))
    as (Hok & Hrange & Hlast & _).
  split; [exact Hok |]. split; [exact Hrange |].
  intros c' Hdone.
  exact (Hlast [silent true; demand_silent; silent true; silent true;
                silent true; silent true] answered 1 c' eq_refl eq_refl
           Hdone).
Defined.
